(** * Genre controller of the library catalogue: model and properties

    A shallow embedding of [controllers/genreController.js].  The eight
    request handlers are functions from a request and a world (the
    document store, the outcomes the store will give to the next
    operations, and the ObjectId generator) to a response and a world.

    Conventions of the embedding:
    - a string is a sequence of 8-bit code units ([string]);
    - an [ObjectId] is the 12-byte value of an identifier that has
      already been cast; the text of a path or body identifier that the
      driver cannot cast is outside the model;
    - a collection is a finite map from [_id] to the other fields of the
      document, so [_id] is unique in a collection, as in the store;
    - every rejection of a store operation that the controller does not
      cause itself (connection loss, schema validators, time-outs) is
      drawn from the [faults] of the world, one entry per operation. *)

From Stdlib Require Import Ascii String.
From stdpp Require Import gmap strings list sorting fin_maps.

Open Scope string_scope.
Open Scope N_scope.

(** ** Strings: what the validation chain does to [name] *)

(** White space as [trim] sees it (the [\s] class, on 8-bit code units). *)
Definition is_whitespace (c : ascii) : bool :=
  match c with
  | "009" | "010" | "011" | "012" | "013" | " " | "160" => true
  | _ => false
  end%char.

Fixpoint ltrim (s : string) : string :=
  match s with
  | String c s' => if is_whitespace c then ltrim s' else s
  | EmptyString => EmptyString
  end.

Definition rtrim (s : string) : string := String.rev (ltrim (String.rev s)).

Definition trim (s : string) : string := rtrim (ltrim s).

(** [escape] replaces the eight markup characters by entities. *)
Definition escape_char (c : ascii) : string :=
  match c with
  | "&"%char => "&amp;"
  | "034"%char => "&quot;"
  | "'"%char => "&#x27;"
  | "<"%char => "&lt;"
  | ">"%char => "&gt;"
  | "/"%char => "&#x2F;"
  | "\"%char => "&#x5C;"
  | "`"%char => "&#96;"
  | _ => String c EmptyString
  end.

Fixpoint escape (s : string) : string :=
  match s with
  | String c s' => escape_char c +:+ escape s'
  | EmptyString => EmptyString
  end.

(** [isLength({ min })]. *)
Definition isLength (min : nat) (s : string) : bool :=
  bool_decide (min ≤ String.length s)%nat.

(** ** Identifiers *)

Definition ObjectId : Type := N.

Definition hex_digit (n : N) : ascii :=
  match n with
  | 0 => "0" | 1 => "1" | 2 => "2" | 3 => "3" | 4 => "4" | 5 => "5"
  | 6 => "6" | 7 => "7" | 8 => "8" | 9 => "9" | 10 => "a" | 11 => "b"
  | 12 => "c" | 13 => "d" | 14 => "e" | _ => "f"
  end%char.

Fixpoint hex_digits (k : nat) (n : N) (acc : string) : string :=
  match k with
  | O => acc
  | S k' => hex_digits k' (n / 16) (String (hex_digit (n mod 16)) acc)
  end.

(** The 24 hexadecimal digits of an identifier. *)
Definition toHexString (id : ObjectId) : string := hex_digits 24 id "".


(** ** Documents and collections *)

(** A Genre document.  Its only stored field besides [_id] is [name]. *)
Record Genre := mkGenre { g_id : ObjectId; g_name : string }.

(** Modelled from the spec: the schema of Book ([models/book.js]); the
    fields the controller reads are [title], [summary] and the collection
    [genre] of Genre references. *)
Record BookFields := mkBookFields {
  title : string;
  summary : string;
  genre : list ObjectId
}.

Record Book := mkBook { b_id : ObjectId; b_fields : BookFields }.

(** A Book under the projection ["title summary"]. *)
Record BookSummary := mkBookSummary {
  bs_id : ObjectId;
  bs_title : string;
  bs_summary : string
}.

(** Modelled from the spec: the schema of BookInstance
    ([models/bookinstance.js]); [book] references one Book. *)
Record BookInstanceFields := mkBookInstanceFields { book : ObjectId }.

(** The three collections, each keyed by [_id]. *)
Record Store := mkStore {
  genres : gmap ObjectId string;
  books : gmap ObjectId BookFields;
  bookinstances : gmap ObjectId BookInstanceFields
}.

(** Modelled from the spec: the virtual [url] of a Genre
    ([models/genre.js]), the canonical path computed from the id. *)
Definition url (g : Genre) : string := "/genre/" +:+ toHexString (g_id g).

(** ** Errors, requests and responses *)

Record Error := mkError {
  err_name : string;
  message : string;
  status : option nat
}.

(** [new Error(message)] followed by [err.status = 404]. *)
Definition not_found (m : string) : Error :=
  {| err_name := "Error"; message := m; status := Some 404%nat |}.

(** What reading [url] of [null] throws. *)
Definition TypeError_url_of_null : Error :=
  {| err_name := "TypeError";
     message := "Cannot read properties of null (reading 'url')";
     status := None |}.

(** What the store answers to an insert whose [_id] is taken. *)
Definition duplicate_key : Error :=
  {| err_name := "MongoServerError";
     message := "E11000 duplicate key error";
     status := None |}.

(** What the store answers to an update that would change [_id]. *)
Definition immutable_id : Error :=
  {| err_name := "MongoServerError";
     message := "Performing an update on the path '_id' would modify the immutable field '_id'";
     status := None |}.

Record ValidationError := mkValidationError {
  ve_location : string;
  ve_path : string;
  ve_value : string;
  ve_msg : string
}.

(** The parts of a request the controller reads: [req.params.id],
    [req.body.name], [req.body.genreid], and the validation errors that
    the chains run so far have recorded on the request. *)
Record Request := mkRequest {
  params_id : ObjectId;
  body_name : string;
  body_genreid : ObjectId;
  validation : list ValidationError
}.

Definition validationResult (req : Request) : list ValidationError :=
  validation req.

Inductive Locals :=
| genre_list_locals (title : string) (genre_list : list Genre)
| genre_detail_locals (title : string) (genre : Genre)
    (genre_books : list BookSummary)
| genre_form_locals (title : string) (genre : option Genre)
    (errors : option (list ValidationError))
| genre_delete_locals (title : string) (genre : Genre)
    (genreBooks : list Book).

(** What a handler does with [res] and [next]. *)
Inductive Response :=
| render (view : string) (locals : Locals)
| redirect (location : string)
| next (err : Error).

(** The status line of the response the handler itself sends:
    [res.render] answers 200 and [res.redirect] 302; after [next(err)]
    the handler sends nothing. *)
Definition statusCode (r : Response) : option nat :=
  match r with
  | render _ _ => Some 200%nat
  | redirect _ => Some 302%nat
  | next _ => None
  end.

(** ** The world and asynchronous operations *)

Record World := mkWorld {
  db : Store;
  faults : list (option Error);
  next_oid : ObjectId
}.

Inductive Outcome (A : Type) :=
| Resolved (a : A) (w : World)
| Rejected (e : Error) (w : World).
Arguments Resolved {A} a w.
Arguments Rejected {A} e w.

Definition Async (A : Type) : Type := World -> Outcome A.

Definition resolve {A} (a : A) : Async A := fun w => Resolved a w.

Definition throw {A} (e : Error) : Async A := fun w => Rejected e w.

Definition bind {A B} (m : Async A) (k : A -> Async B) : Async B :=
  fun w =>
    match m w with
    | Resolved a w' => k a w'
    | Rejected e w' => Rejected e w'
    end.

Notation "'await' x <- m ; k" := (bind m (fun x => k))
  (at level 10, x pattern, m at level 100, k at level 200).

(** [try { m } catch (err) { h err }]. *)
Definition try_catch {A} (m : Async A) (h : Error -> Async A) : Async A :=
  fun w =>
    match m w with
    | Resolved a w' => Resolved a w'
    | Rejected e w' => h e w'
    end.

(** [Promise.all] of two and of three operations: every operation is
    started, in the order of the array, whatever becomes of the others,
    and a rejection of one of them rejects the result.  When more than
    one operation is rejected, the runtime passes on the rejection that
    comes first in time; the order of time is not part of the world, and
    this function then returns the rejection that is first in the array.
    The theorems on handlers that wait for several operations speak of
    the store, or of some rejection among those that occurred. *)
Definition Promise_all2 {A B} (p : Async A) (q : Async B) : Async (A * B) :=
  fun w =>
    match p w with
    | Resolved a w1 =>
        match q w1 with
        | Resolved b w2 => Resolved (a, b) w2
        | Rejected e w2 => Rejected e w2
        end
    | Rejected e w1 =>
        match q w1 with
        | Resolved _ w2 => Rejected e w2
        | Rejected _ w2 => Rejected e w2
        end
    end.

Definition Promise_all3 {A B C} (p : Async A) (q : Async B) (r : Async C)
  : Async (A * B * C) :=
  Promise_all2 (Promise_all2 p q) r.

(** The world after one operation that leaves the store as [s]: the
    operation has taken its entry of [faults]. *)
Definition after_op (s : Store) (w : World) : World :=
  {| db := s; faults := tl (faults w); next_oid := next_oid w |}.

(** One operation on the store.  It takes the next entry of [faults]: a
    fault rejects the operation and leaves the store as it is.  Without a
    fault the operation [f] runs; it may itself reject. *)
Definition store_op {A} (f : Store -> Error + A * Store) : Async A :=
  fun w =>
    match hd None (faults w) with
    | Some e => Rejected e (after_op (db w) w)
    | None =>
        match f (db w) with
        | inl e => Rejected e (after_op (db w) w)
        | inr (a, s) => Resolved a (after_op s w)
        end
    end.

(** A read never changes the store, a write never rejects on its own. *)
Definition read {A} (f : Store -> A) : Async A :=
  store_op (fun s => inr (f s, s)).

Definition write {A} (f : Store -> A * Store) : Async A :=
  store_op (fun s => inr (f s)).

(** A new [ObjectId], as the constructor of a document takes one. *)
Definition new_ObjectId : Async ObjectId :=
  fun w =>
    Resolved (next_oid w)
      {| db := db w; faults := faults w; next_oid := next_oid w + 1 |}.

(** [asyncHandler]: a rejection of the handler goes to [next]. *)
Definition asyncHandler (m : Async Response) (w : World) : Response * World :=
  match m w with
  | Resolved r w' => (r, w')
  | Rejected e w' => (next e, w')
  end.

(** ** The queries the controller sends *)

Definition set_genres (m : gmap ObjectId string) (s : Store) : Store :=
  {| genres := m; books := books s; bookinstances := bookinstances s |}.

Definition set_books (m : gmap ObjectId BookFields) (s : Store) : Store :=
  {| genres := genres s; books := m; bookinstances := bookinstances s |}.

Definition set_bookinstances (m : gmap ObjectId BookInstanceFields)
    (s : Store) : Store :=
  {| genres := genres s; books := books s; bookinstances := m |}.

Definition genre_docs (s : Store) : list Genre :=
  (fun kv => mkGenre kv.1 kv.2) <$> map_to_list (genres s).

Definition book_docs (m : gmap ObjectId BookFields) : list Book :=
  (fun kv => mkBook kv.1 kv.2) <$> map_to_list m.

Definition projection (b : Book) : BookSummary :=
  {| bs_id := b_id b;
     bs_title := title (b_fields b);
     bs_summary := summary (b_fields b) |}.

(** [{ name: 'asc' }]: code units compared from left to right. *)
Definition name_asc (g1 g2 : Genre) : Prop := String.le (g_name g1) (g_name g2).

Global Instance name_asc_dec : RelDecision name_asc.
Proof. intros g1 g2. unfold name_asc. apply _. Defined.

(** [Genre.find().sort({ name: 'asc' })]. *)
Definition Genre_find_sort (s : Store) : list Genre :=
  merge_sort name_asc (genre_docs s).

(** [Genre.findById(id)]. *)
Definition Genre_findById (id : ObjectId) (s : Store) : option Genre :=
  mkGenre id <$> genres s !! id.

(** [Genre.findOne({ name })]. *)
Definition Genre_findOne (name : string) (s : Store) : option Genre :=
  head (filter (fun g => g_name g = name) (genre_docs s)).

(** [genre.save()] of a new document. *)
Definition Genre_save (g : Genre) (s : Store) : Error + unit * Store :=
  match genres s !! g_id g with
  | Some _ => inl duplicate_key
  | None => inr (tt, set_genres (<[g_id g := g_name g]> (genres s)) s)
  end.

(** [Genre.findByIdAndDelete(id)]. *)
Definition Genre_findByIdAndDelete (id : ObjectId) (s : Store)
  : option Genre * Store :=
  (Genre_findById id s, set_genres (delete id (genres s)) s).

(** [Genre.findOneAndUpdate({ _id: id }, update, { new: true })]: the
    fields of [update] are set on the document found, which is returned
    as it is afterwards; [null] when there is none. *)
Definition Genre_findOneAndUpdate (id : ObjectId) (update : Genre) (s : Store)
  : Error + option Genre * Store :=
  match genres s !! id with
  | Some _ =>
      if decide (g_id update = id)
      then inr (Some (mkGenre id (g_name update)),
                set_genres (<[id := g_name update]> (genres s)) s)
      else inl immutable_id
  | None => inr (None, s)
  end.

(** The filter [{ genre: { $in: ids } }] on a Book: some element of its
    [genre] collection is one of [ids]. *)
Definition genre_in (ids : list ObjectId) (b : BookFields) : Prop :=
  Exists (fun g => g ∈ ids) (genre b).

(** [Book.find({ genre: id })]; on a collection field this is the same
    filter as [{ genre: { $in: [id] } }]. *)
Definition Book_find (id : ObjectId) (s : Store) : list Book :=
  book_docs (filter (fun kv => genre_in [id] kv.2) (books s)).

(** [Book.deleteMany({ genre: { $in: ids } })]. *)
Definition Book_deleteMany (ids : list ObjectId) (s : Store) : unit * Store :=
  (tt, set_books (filter (fun kv => ¬ genre_in ids kv.2) (books s)) s).

(** [Bookinstance.deleteMany({ book: { $in: ids } })]. *)
Definition Bookinstance_deleteMany (ids : list ObjectId) (s : Store)
  : unit * Store :=
  (tt, set_bookinstances
         (filter (fun kv => book kv.2 ∉ ids) (bookinstances s)) s).

(** ** The handlers *)

(** [promise.then(f).catch(g)] where [f] and [g] answer the request. *)
Definition then_catch {A} (p : Async A) (f : A -> Response)
    (g : Error -> Response) (w : World) : Response * World :=
  match p w with
  | Resolved a w' => (f a, w')
  | Rejected e w' => (g e, w')
  end.

(** Display list of all Genre. *)
Definition genre_list (req : Request) : World -> Response * World :=
  then_catch (read Genre_find_sort)
    (fun list_genres =>
       render "genre_list" (genre_list_locals "Genre List" list_genres))
    (fun err => next err).

(** Display detail page for a specific Genre. *)
Definition genre_detail (req : Request) : World -> Response * World :=
  asyncHandler (
    await (genre, booksInGenre) <-
      Promise_all2
        (read (Genre_findById (params_id req)))
        (read (fun s => projection <$> Book_find (params_id req) s));
    match genre with
    | None => resolve (next (not_found "Genre not found"))
    | Some genre =>
        resolve (render "genre_detail"
                   (genre_detail_locals "Genre Detail" genre booksInGenre))
    end).

(** Display Genre create form on GET. *)
Definition genre_create_get (req : Request) (w : World) : Response * World :=
  (render "genre_form" (genre_form_locals "Create Genre" None None), w).

(** The chain [body("name", msg).trim().isLength({ min: 3 }).escape()]:
    it rewrites [req.body.name] and records an error when the trimmed
    value is too short; the value is escaped in both cases. *)
Definition body_name_chain (req : Request) : Request :=
  let trimmed := trim (body_name req) in
  {| params_id := params_id req;
     body_name := escape trimmed;
     body_genreid := body_genreid req;
     validation :=
       validation req ++
       (if isLength 3 trimmed then []
        else [ {| ve_location := "body";
                  ve_path := "name";
                  ve_value := trimmed;
                  ve_msg := "Genre name must contain at least 3 characters" |} ])
  |}.

(** Process request after validation and sanitization. *)
Definition genre_create_post_handler (req : Request) : World -> Response * World :=
  asyncHandler (
    let errors := validationResult req in
    await oid <- new_ObjectId;
    let genre := mkGenre oid (body_name req) in
    match errors with
    | _ :: _ =>
        resolve (render "genre_form"
                   (genre_form_locals "Create Genre" (Some genre) (Some errors)))
    | [] =>
        await genreExists <- read (Genre_findOne (body_name req));
        match genreExists with
        | Some found => resolve (redirect (url found))
        | None =>
            await _ <- store_op (Genre_save genre);
            resolve (redirect (url genre))
        end
    end).

(** Handle Genre create on POST. *)
Definition genre_create_post (req : Request) : World -> Response * World :=
  genre_create_post_handler (body_name_chain req).

(** Display Genre delete form on GET. *)
Definition genre_delete_get (req : Request) : World -> Response * World :=
  asyncHandler (
    await (genre, genreBooks) <-
      Promise_all2
        (read (Genre_findById (params_id req)))
        (read (Book_find (params_id req)));
    match genre with
    | None => resolve (next (not_found "Genre not found"))
    | Some genre =>
        resolve (render "genre_delete"
                   (genre_delete_locals "Delete Genre" genre genreBooks))
    end).

(** Handle Genre delete on POST. *)
Definition genre_delete_post (req : Request) : World -> Response * World :=
  asyncHandler (
    let genreId := body_genreid req in
    await associatedBooks <- read (Book_find genreId);
    let bookIds := b_id <$> associatedBooks in
    await _ <-
      Promise_all3
        (write (Genre_findByIdAndDelete genreId))
        (write (Book_deleteMany [genreId]))
        (write (Bookinstance_deleteMany bookIds));
    resolve (redirect "/catalog/genres")).

(** Display Genre update form on GET. *)
Definition genre_update_get (req : Request) : World -> Response * World :=
  asyncHandler (
    await genre <- read (Genre_findById (params_id req));
    match genre with
    | None => resolve (next (not_found "Genre not found"))
    | Some genre =>
        resolve (render "genre_form"
                   (genre_form_locals "Update Genre" (Some genre) None))
    end).

(** Handle Genre update on POST.  The constructor of the document draws
    an [ObjectId] of its own before it takes the [_id] it is given. *)
Definition genre_update_post (req : Request) : World -> Response * World :=
  asyncHandler (
    await _ <- new_ObjectId;
    let genre := mkGenre (params_id req) (body_name req) in
    let errors := validationResult req in
    match errors with
    | _ :: _ =>
        resolve (render "genre_form"
                   (genre_form_locals "Update Genre" (Some genre) (Some errors)))
    | [] =>
        try_catch
          (await updatedGenre <-
             store_op (Genre_findOneAndUpdate (params_id req) genre);
           match updatedGenre with
           | Some updated => resolve (redirect (url updated))
           | None => throw TypeError_url_of_null
           end)
          (fun err => resolve (next err))
    end).

(** ** Runs without faults *)

(** No operation to come is given a fault. *)
Definition store_available (w : World) : Prop :=
  Forall (fun f => f = None) (faults w).

Global Instance store_available_dec w : Decision (store_available w).
Proof. unfold store_available. apply _. Defined.

(** The error recorded by the chain of create-POST. *)
Definition name_too_short (value : string) : ValidationError :=
  {| ve_location := "body";
     ve_path := "name";
     ve_value := value;
     ve_msg := "Genre name must contain at least 3 characters" |}.

(** ** A small library *)

Definition library : Store :=
  {| genres := {[ 1 := "Fiction"; 2 := "Art"; 3 := "&lt;" ]};
     books := {[ 10 := mkBookFields "Dune" "Sand" [1];
                 11 := mkBookFields "Maus" "Mice" [1; 2];
                 12 := mkBookFields "Ways of Seeing" "Looking" [2] ]};
     bookinstances := {[ 20 := mkBookInstanceFields 10;
                         21 := mkBookInstanceFields 12;
                         22 := mkBookInstanceFields 11 ]} |}.

Definition quiet (s : Store) : World :=
  {| db := s; faults := []; next_oid := 100 |}.

Definition timeout : Error :=
  {| err_name := "MongoNetworkTimeoutError";
     message := "connection timed out";
     status := None |}.

Definition connection_closed : Error :=
  {| err_name := "MongoNetworkError";
     message := "connection closed";
     status := None |}.

(** The library after a delete-POST of genre 1 whose two [deleteMany]
    met a fault: the Genre is gone, its Books and their instances are
    still stored. *)
Definition orphaned : Store :=
  db (genre_delete_post (mkRequest 1 "" 1 [])
        {| db := library;
           faults := [None; None; Some timeout; Some timeout];
           next_oid := 100 |}).2.

(** ** Conditions on the store *)

(** Every Genre that a Book references is stored, and so is the Book of
    every BookInstance. *)
Definition referential (s : Store) : Prop :=
  map_Forall
    (fun _ b => Forall (fun g => is_Some (genres s !! g)) (genre b))
    (books s) /\
  map_Forall (fun _ i => is_Some (books s !! book i)) (bookinstances s).

(** No two stored Genres have the same name. *)
Definition unique_names (s : Store) : Prop :=
  forall i j n, genres s !! i = Some n -> genres s !! j = Some n -> i = j.

(** The characters that [escape] leaves in no string. *)
Definition is_markup (c : ascii) : bool :=
  match c with
  | "<" | ">" | "034" | "'" | "/" | "\" | "`" => true
  | _ => false
  end%char.

(** The code units of a string. *)
Fixpoint code_units (s : string) : list ascii :=
  match s with
  | String c s' => c :: code_units s'
  | EmptyString => []
  end.

(** ** Properties of the model *)

Example trim_Fi : trim " Fi " = "Fi".
Proof. reflexivity. Qed.

Example escape_markup : escape "a<b>&c" = "a&lt;b&gt;&amp;c".
Proof. reflexivity. Qed.

Example hex_255 : toHexString 255 = "0000000000000000000000ff".
Proof. reflexivity. Qed.

Lemma store_available_hd w : store_available w -> hd None (faults w) = None.
Proof.
  unfold store_available. destruct (faults w) as [|f fs]; simpl; [done|].
  by inversion 1.
Qed.

Lemma store_available_after_op s w :
  store_available w -> store_available (after_op s w).
Proof.
  unfold store_available, after_op. simpl.
  destruct (faults w) as [|f fs]; simpl; [done|]. by inversion 1.
Qed.

Lemma read_available {A} (f : Store -> A) w :
  store_available w -> read f w = Resolved (f (db w)) (after_op (db w) w).
Proof.
  intros Hw. unfold read, store_op. by rewrite (store_available_hd w Hw).
Qed.

Lemma write_available {A} (f : Store -> A * Store) w :
  store_available w ->
  write f w = Resolved (f (db w)).1 (after_op (f (db w)).2 w).
Proof.
  intros Hw. unfold write, store_op. rewrite (store_available_hd w Hw).
  by destruct (f (db w)).
Qed.

Lemma store_op_available {A} (f : Store -> Error + A * Store) w :
  store_available w ->
  store_op f w =
    match f (db w) with
    | inl e => Rejected e (after_op (db w) w)
    | inr (a, s) => Resolved a (after_op s w)
    end.
Proof.
  intros Hw. unfold store_op. by rewrite (store_available_hd w Hw).
Qed.

(** A fault is forwarded and the store is left alone. *)
Lemma store_op_fault {A} (f : Store -> Error + A * Store) w e :
  hd None (faults w) = Some e ->
  store_op f w = Rejected e (after_op (db w) w).
Proof. intros Hw. unfold store_op. by rewrite Hw. Qed.

Lemma Store_eq (s1 s2 : Store) :
  genres s1 = genres s2 -> books s1 = books s2 ->
  bookinstances s1 = bookinstances s2 -> s1 = s2.
Proof. destruct s1, s2. simpl. by intros -> -> ->. Qed.

Lemma db_after_op s w : db (after_op s w) = s.
Proof. reflexivity. Qed.

Lemma next_oid_after_op s w : next_oid (after_op s w) = next_oid w.
Proof. reflexivity. Qed.

(** ** What the queries return *)

Global Instance name_asc_trans : Transitive name_asc.
Proof. intros g1 g2 g3. unfold name_asc. apply transitivity. Qed.

Global Instance name_asc_total : Total name_asc.
Proof. intros g1 g2. unfold name_asc. apply total. apply _. Qed.

Lemma elem_of_genre_docs s g :
  g ∈ genre_docs s <-> genres s !! g_id g = Some (g_name g).
Proof.
  unfold genre_docs. rewrite list_elem_of_fmap. split.
  - intros ([i n] & -> & Hin). simpl. by apply elem_of_map_to_list.
  - intros Hg. exists (g_id g, g_name g). split; [by destruct g|].
    by apply elem_of_map_to_list.
Qed.

Lemma Genre_findOne_None name s :
  (forall id, genres s !! id <> Some name) -> Genre_findOne name s = None.
Proof.
  intros Hno. unfold Genre_findOne. apply head_None.
  destruct (filter _ _) as [|g l] eqn:Hf; [done|].
  assert (g ∈ filter (fun g => g_name g = name) (genre_docs s)) as Hg
    by (rewrite Hf; left).
  apply list_elem_of_filter in Hg as [Hn Hg].
  apply elem_of_genre_docs in Hg. rewrite Hn in Hg. by destruct (Hno (g_id g)).
Qed.

Lemma Genre_findOne_Some_inv name s g :
  Genre_findOne name s = Some g ->
  g_name g = name /\ genres s !! g_id g = Some name.
Proof.
  unfold Genre_findOne. intros Hh. apply head_Some_elem_of in Hh.
  apply list_elem_of_filter in Hh as [Hn Hg].
  apply elem_of_genre_docs in Hg. by rewrite Hn in Hg.
Qed.

Lemma Genre_findOne_is_Some name s id :
  genres s !! id = Some name -> is_Some (Genre_findOne name s).
Proof.
  intros Hid. unfold Genre_findOne. apply head_is_Some.
  intros Hnil.
  apply (filter_nil_not_elem_of _ _ (mkGenre id name)) in Hnil; [|done].
  apply Hnil, elem_of_genre_docs. done.
Qed.

Lemma Genre_findOne_None_inv name s :
  Genre_findOne name s = None -> forall id, genres s !! id <> Some name.
Proof.
  intros Hnone id Hid.
  destruct (Genre_findOne_is_Some _ _ _ Hid) as [g Hg]. congruence.
Qed.

Lemma elem_of_Book_find id s b :
  b ∈ Book_find id s <->
  books s !! b_id b = Some (b_fields b) /\ id ∈ genre (b_fields b).
Proof.
  unfold Book_find, book_docs. rewrite list_elem_of_fmap. split.
  - intros ([i f] & -> & Hin). simpl.
    apply elem_of_map_to_list, map_lookup_filter_Some in Hin as [Hl Hg].
    split; [done|]. unfold genre_in in Hg. simpl in Hg.
    apply Exists_exists in Hg as (g & Hg & Hid).
    by apply list_elem_of_singleton in Hid as <-.
  - intros [Hl Hg]. exists (b_id b, b_fields b). split; [by destruct b|].
    apply elem_of_map_to_list, map_lookup_filter_Some. split; [done|].
    unfold genre_in. simpl. apply Exists_exists. exists id.
    split; [done|]. by apply list_elem_of_singleton.
Qed.

Lemma genre_in_singleton id b : genre_in [id] b <-> id ∈ genre b.
Proof.
  unfold genre_in. rewrite Exists_exists. split.
  - intros (g & Hg & Hid). by apply list_elem_of_singleton in Hid as <-.
  - intros Hg. exists id. split; [done|]. by apply list_elem_of_singleton.
Qed.

Lemma Book_find_nil id s :
  (forall B b, books s !! B = Some b -> id ∉ genre b) -> Book_find id s = [].
Proof.
  intros Hno. destruct (Book_find id s) as [|b l] eqn:Hf; [done|].
  assert (b ∈ Book_find id s) as Hb by (rewrite Hf; left).
  apply elem_of_Book_find in Hb as [Hl Hg]. by destruct (Hno _ _ Hl).
Qed.

(** ** The list handler *)

Lemma Genre_find_sort_Permutation s : Genre_find_sort s ≡ₚ genre_docs s.
Proof. apply merge_sort_Permutation. Qed.

Lemma Genre_find_sort_sorted s : StronglySorted name_asc (Genre_find_sort s).
Proof. apply StronglySorted_merge_sort; apply _. Qed.

(** Every stored Genre, and nothing else, is in the list. *)
Lemma elem_of_Genre_find_sort s g :
  g ∈ Genre_find_sort s <-> genres s !! g_id g = Some (g_name g).
Proof. by rewrite Genre_find_sort_Permutation, elem_of_genre_docs. Qed.

(** C8. In every world the list handler sends one query and leaves the
    store as it is.  When the query is given a fault, that error goes to
    [next] and nothing is rendered.  Otherwise the view [genre_list] is
    rendered with a list that holds exactly the stored Genres (it is a
    permutation of the documents of the collection) in ascending order of
    [name]. *)
Theorem genre_list_all_sorted_or_forwarded (req : Request) (w : World) :
  db (genre_list req w).2 = db w /\
  match hd None (faults w) with
  | Some err => (genre_list req w).1 = next err
  | None =>
      exists list_genres,
        (genre_list req w).1 =
          render "genre_list" (genre_list_locals "Genre List" list_genres) /\
        list_genres ≡ₚ genre_docs (db w) /\
        StronglySorted name_asc list_genres
  end.
Proof.
  unfold genre_list, then_catch, read, store_op.
  destruct (hd None (faults w)) as [err|]; simpl; [done|].
  split; [done|]. exists (Genre_find_sort (db w)).
  auto using Genre_find_sort_Permutation, Genre_find_sort_sorted.
Qed.

(** ** Identifiers that match no Genre *)

Lemma Genre_findById_None id s :
  genres s !! id = None -> Genre_findById id s = None.
Proof. intros H. unfold Genre_findById. by rewrite H. Qed.

(** C5. When the path identifier matches no stored Genre and the store
    answers every query, the detail handler, the delete-GET handler and
    the update-GET handler each pass to [next] the error "Genre not found"
    whose status is 404; none of them renders a view. *)
Theorem genre_absent_reports_404 (req : Request) (w : World) :
  genres (db w) !! params_id req = None ->
  store_available w ->
  (genre_detail req w).1 = next (not_found "Genre not found") /\
  (genre_delete_get req w).1 = next (not_found "Genre not found") /\
  (genre_update_get req w).1 = next (not_found "Genre not found") /\
  status (not_found "Genre not found") = Some 404%nat.
Proof.
  intros Hnone Hw.
  pose proof (store_available_after_op (db w) w Hw) as Hw'.
  unfold genre_detail, genre_delete_get, genre_update_get.
  unfold asyncHandler, bind, Promise_all2.
  rewrite !(read_available _ w Hw), !(read_available _ _ Hw'). simpl.
  by rewrite (Genre_findById_None _ _ Hnone).
Qed.

(** X5. Whatever faults are to come, none of the three handlers renders a
    view for an identifier that matches no stored Genre: each passes an
    error to [next]. *)
Lemma genre_absent_never_rendered (req : Request) (w : World) :
  genres (db w) !! params_id req = None ->
  (exists err, (genre_detail req w).1 = next err) /\
  (exists err, (genre_delete_get req w).1 = next err) /\
  (exists err, (genre_update_get req w).1 = next err).
Proof.
  intros Hnone.
  unfold genre_detail, genre_delete_get, genre_update_get.
  unfold asyncHandler, bind, Promise_all2, read, store_op. simpl.
  rewrite (Genre_findById_None _ _ Hnone).
  destruct (hd None (faults w)) as [e1|]; simpl;
    destruct (hd None (tl (faults w))) as [e2|]; simpl; repeat split; eauto.
Qed.

Lemma genre_absent_reports_404_witness :
  (genre_detail (mkRequest 5 "" 0 []) (quiet library)).1
    = next (not_found "Genre not found") /\
  (genre_delete_get (mkRequest 5 "" 0 []) (quiet library)).1
    = next (not_found "Genre not found") /\
  (genre_update_get (mkRequest 5 "" 0 []) (quiet library)).1
    = next (not_found "Genre not found") /\
  status (not_found "Genre not found") = Some 404%nat.
Proof.
  apply (genre_absent_reports_404 (mkRequest 5 "" 0 []) (quiet library)).
  - reflexivity.
  - by vm_compute.
Defined.

(** ** The cascade of delete-POST *)

(** The store after a delete-POST that met no fault. *)
Lemma genre_delete_post_available (req : Request) (w : World) :
  store_available w ->
  let G := body_genreid req in
  (genre_delete_post req w).1 = redirect "/catalog/genres" /\
  genres (db (genre_delete_post req w).2) = delete G (genres (db w)) /\
  books (db (genre_delete_post req w).2)
    = filter (fun kv => ¬ genre_in [G] kv.2) (books (db w)) /\
  bookinstances (db (genre_delete_post req w).2)
    = filter (fun kv => book kv.2 ∉ b_id <$> Book_find G (db w))
        (bookinstances (db w)).
Proof.
  intros Hw G.
  pose proof (store_available_after_op (db w) w Hw) as Hw1.
  unfold genre_delete_post, asyncHandler, bind, Promise_all3, Promise_all2.
  rewrite (read_available _ w Hw), (write_available _ _ Hw1).
  match goal with
  | |- context [write ?f (after_op ?s ?w0)] =>
      pose proof (store_available_after_op s w0 Hw1) as Hw2
  end.
  rewrite (write_available _ _ Hw2).
  match goal with
  | |- context [write ?f (after_op ?s ?w0)] =>
      pose proof (store_available_after_op s w0 Hw2) as Hw3
  end.
  rewrite (write_available _ _ Hw3). simpl. done.
Qed.

(** C1. After a delete-POST for the genre id [G] that met no fault, no
    Genre has id [G], every other Genre is as it was, no Book that
    referenced [G] is left, no BookInstance of such a Book is left, and no
    remaining Book references [G]. *)
Theorem genre_delete_post_cascade (req : Request) (w : World) :
  store_available w ->
  let G := body_genreid req in
  let s := db w in
  let s' := db (genre_delete_post req w).2 in
  genres s' !! G = None /\
  (forall G', G' <> G -> genres s' !! G' = genres s !! G') /\
  (forall B b, books s !! B = Some b -> G ∈ genre b -> books s' !! B = None) /\
  (forall I i b,
     bookinstances s !! I = Some i ->
     books s !! book i = Some b -> G ∈ genre b ->
     bookinstances s' !! I = None) /\
  (forall B b, books s' !! B = Some b -> G ∉ genre b).
Proof.
  intros Hw G s s'.
  destruct (genre_delete_post_available req w Hw) as (_ & Hg & Hb & Hi).
  subst s s'. rewrite Hg, Hb, Hi. repeat split.
  - apply lookup_delete_eq.
  - intros G' HG'. by apply lookup_delete_ne.
  - intros B b HB HG. apply map_lookup_filter_None. right.
    intros b' HB' Hkeep. simpl in Hkeep. apply Hkeep, genre_in_singleton.
    rewrite HB in HB'. by injection HB' as <-.
  - intros I i b HI HB HG. apply map_lookup_filter_None. right.
    intros i' HI' Hkeep. simpl in Hkeep. apply Hkeep.
    rewrite HI in HI'. injection HI' as <-.
    apply list_elem_of_fmap. exists (mkBook (book i) b). split; [done|].
    by apply elem_of_Book_find.
  - intros B b HB HG. apply map_lookup_filter_Some in HB as [_ Hkeep].
    simpl in Hkeep. by apply Hkeep, genre_in_singleton.
Qed.

Lemma genre_delete_post_cascade_witness :
  let req := mkRequest 2 "" 1 [] in
  let s := library in
  let s' := db (genre_delete_post req (quiet library)).2 in
  genres s' !! 1 = None /\
  (forall G', G' <> 1 -> genres s' !! G' = genres s !! G') /\
  (forall B b, books s !! B = Some b -> 1 ∈ genre b -> books s' !! B = None) /\
  (forall I i b,
     bookinstances s !! I = Some i ->
     books s !! book i = Some b -> 1 ∈ genre b ->
     bookinstances s' !! I = None) /\
  (forall B b, books s' !! B = Some b -> 1 ∉ genre b).
Proof.
  apply (genre_delete_post_cascade (mkRequest 2 "" 1 []) (quiet library)).
  by vm_compute.
Defined.

(** The cascade on the library: genre 1 goes with the books 10 and 11 and
    their instances 20 and 22. *)
Example genre_delete_post_library :
  db (genre_delete_post (mkRequest 2 "" 1 []) (quiet library)).2 =
  {| genres := {[ 2 := "Art"; 3 := "&lt;" ]};
     books := {[ 12 := mkBookFields "Ways of Seeing" "Looking" [2] ]};
     bookinstances := {[ 21 := mkBookInstanceFields 12 ]} |}.
Proof. by vm_compute. Qed.

(** ** Create-POST *)

Lemma isLength_true min s : (min ≤ String.length s)%nat -> isLength min s = true.
Proof. intros H. unfold isLength. by apply bool_decide_eq_true. Qed.

Lemma isLength_false min s : (String.length s < min)%nat -> isLength min s = false.
Proof. intros H. unfold isLength. apply bool_decide_eq_false. lia. Qed.

(** The request as the chain hands it to the handler. *)
Lemma body_name_chain_valid req :
  (3 ≤ String.length (trim (body_name req)))%nat ->
  body_name_chain req =
    {| params_id := params_id req;
       body_name := escape (trim (body_name req));
       body_genreid := body_genreid req;
       validation := validation req |}.
Proof.
  intros H. unfold body_name_chain. rewrite (isLength_true _ _ H).
  by rewrite app_nil_r.
Qed.

Lemma body_name_chain_invalid req :
  (String.length (trim (body_name req)) < 3)%nat ->
  body_name_chain req =
    {| params_id := params_id req;
       body_name := escape (trim (body_name req));
       body_genreid := body_genreid req;
       validation := validation req ++ [name_too_short (trim (body_name req))] |}.
Proof. intros H. unfold body_name_chain. by rewrite (isLength_false _ _ H). Qed.

(** C4. When the trimmed name is shorter than 3, create-POST sends no
    operation to the store, which stays as it is, and renders the form
    [genre_form] again, with the trimmed and escaped value and with the
    validation error of the field [name] at the end of the errors; the
    answer has status 200 and nothing goes to [next]. *)
Theorem genre_create_post_too_short (req : Request) (w : World) :
  (String.length (trim (body_name req)) < 3)%nat ->
  let genre := mkGenre (next_oid w) (escape (trim (body_name req))) in
  let errors :=
    (validation req ++ [name_too_short (trim (body_name req))])%list in
  (genre_create_post req w).1 =
    render "genre_form"
      (genre_form_locals "Create Genre" (Some genre) (Some errors)) /\
  statusCode (genre_create_post req w).1 = Some 200%nat /\
  db (genre_create_post req w).2 = db w /\
  faults (genre_create_post req w).2 = faults w.
Proof.
  intros Hshort genre errors. unfold genre_create_post.
  rewrite (body_name_chain_invalid req Hshort).
  unfold genre_create_post_handler, asyncHandler, bind, new_ObjectId,
    validationResult.
  simpl. fold errors.
  assert (exists e l, errors = e :: l) as (e & l & He).
  { subst errors. destruct (validation req); simpl; eauto. }
  rewrite He. simpl. done.
Qed.

Lemma genre_create_post_too_short_witness :
  let req := mkRequest 0 " Fi " 0 [] in
  let w := quiet library in
  (genre_create_post req w).1 =
    render "genre_form"
      (genre_form_locals "Create Genre" (Some (mkGenre 100 "Fi"))
         (Some [name_too_short "Fi"])) /\
  statusCode (genre_create_post req w).1 = Some 200%nat /\
  db (genre_create_post req w).2 = db w /\
  faults (genre_create_post req w).2 = faults w.
Proof.
  apply (genre_create_post_too_short (mkRequest 0 " Fi " 0 []) (quiet library)).
  vm_compute. lia.
Defined.

(** The run of create-POST on a valid name when the store answers: one
    query by name, then a redirect to the Genre found, or the insert of
    the new Genre and a redirect to it. *)
Lemma genre_create_post_run (req : Request) (w : World) :
  validation req = [] ->
  (3 ≤ String.length (trim (body_name req)))%nat ->
  store_available w ->
  let name := escape (trim (body_name req)) in
  let genre := mkGenre (next_oid w) name in
  let w0 := {| db := db w; faults := faults w; next_oid := next_oid w + 1 |} in
  genre_create_post req w =
    match Genre_findOne name (db w) with
    | Some found => (redirect (url found), after_op (db w) w0)
    | None =>
        match Genre_save genre (db w) with
        | inl e => (next e, after_op (db w) (after_op (db w) w0))
        | inr (_, s) => (redirect (url genre), after_op s (after_op (db w) w0))
        end
    end.
Proof.
  intros Hval Hlen Hw name genre w0. unfold genre_create_post.
  rewrite (body_name_chain_valid req Hlen).
  unfold genre_create_post_handler, asyncHandler, bind, new_ObjectId,
    validationResult.
  simpl. rewrite Hval. fold w0 name genre.
  assert (store_available w0) as Hw0 by exact Hw.
  rewrite (read_available _ w0 Hw0). simpl.
  destruct (Genre_findOne name (db w)) as [found|]; [done|].
  rewrite (store_op_available _ _ (store_available_after_op (db w) w0 Hw0)).
  simpl. by destruct (Genre_save genre (db w)) as [e|[[] s]].
Qed.

(** C2. When no error is recorded on the request, the trimmed name has
    length at least 3, no stored Genre has the trimmed and escaped name,
    the store answers every operation and the new identifier is not in
    use, create-POST redirects to the canonical URL of the new Genre, and
    the store afterwards is the store before with that one Genre added
    under the new identifier: the Genre collection has one document more,
    Books and BookInstances are as they were. *)
Theorem genre_create_post_new (req : Request) (w : World) :
  validation req = [] ->
  (3 ≤ String.length (trim (body_name req)))%nat ->
  (forall id, genres (db w) !! id <> Some (escape (trim (body_name req)))) ->
  genres (db w) !! next_oid w = None ->
  store_available w ->
  let genre := mkGenre (next_oid w) (escape (trim (body_name req))) in
  (genre_create_post req w).1 = redirect (url genre) /\
  genres (db (genre_create_post req w).2)
    = <[g_id genre := g_name genre]> (genres (db w)) /\
  size (genres (db (genre_create_post req w).2)) = S (size (genres (db w))) /\
  books (db (genre_create_post req w).2) = books (db w) /\
  bookinstances (db (genre_create_post req w).2) = bookinstances (db w).
Proof.
  intros Hval Hlen Hnew Hfresh Hw genre.
  rewrite (genre_create_post_run req w Hval Hlen Hw).
  rewrite (Genre_findOne_None _ _ Hnew).
  unfold Genre_save. simpl. rewrite Hfresh. simpl.
  repeat split. by apply map_size_insert_None.
Qed.

Lemma genre_create_post_new_witness :
  let req := mkRequest 0 " Poetry/Verse " 0 [] in
  let w := quiet library in
  let genre := mkGenre 100 "Poetry&#x2F;Verse" in
  (genre_create_post req w).1 = redirect (url genre) /\
  genres (db (genre_create_post req w).2)
    = <[g_id genre := g_name genre]> (genres (db w)) /\
  size (genres (db (genre_create_post req w).2)) = S (size (genres (db w))) /\
  books (db (genre_create_post req w).2) = books (db w) /\
  bookinstances (db (genre_create_post req w).2) = bookinstances (db w).
Proof.
  apply (genre_create_post_new (mkRequest 0 " Poetry/Verse " 0 [])
           (quiet library)).
  - reflexivity.
  - vm_compute. lia.
  - apply Genre_findOne_None_inv. reflexivity.
  - reflexivity.
  - by vm_compute.
Defined.

(** Update-POST stores the submitted name as it is, so a name such as
    ["&lt;"] can be in the store. *)
Example genre_update_post_stores_entity :
  genres (db (genre_update_post (mkRequest 2 "&lt;" 0 []) (quiet library)).2) !! 2
  = Some "&lt;".
Proof. by vm_compute. Qed.

(** A name that is stored but whose submitted form is too short: the
    Genre ["&lt;"] is what [escape] makes of ["<"], and ["<"] fails the
    length check, which the chain runs before it escapes.  The store
    holds such a name: the form is rendered again, there is no redirect. *)
Lemma genre_create_post_stored_name_too_short :
  let req := mkRequest 0 "<" 0 [] in
  let w := quiet library in
  validation req = [] /\
  store_available w /\
  genres (db w) !! 3 = Some (escape (trim (body_name req))) /\
  (genre_create_post req w).1 =
    render "genre_form"
      (genre_form_locals "Create Genre" (Some (mkGenre 100 "&lt;"))
         (Some [name_too_short "<"])) /\
  (forall location, (genre_create_post req w).1 <> redirect location).
Proof.
  repeat split; [by vm_compute|]. intros location. by vm_compute.
Qed.

(** C3. When no error is recorded on the request, the trimmed name has
    length at least 3, some stored Genre has the trimmed and escaped name
    and the store answers the query, create-POST redirects to the
    canonical URL of a stored Genre of that name (the one the query
    finds) and the store is as it was. *)
Theorem genre_create_post_existing (req : Request) (w : World) (id : ObjectId) :
  validation req = [] ->
  (3 ≤ String.length (trim (body_name req)))%nat ->
  genres (db w) !! id = Some (escape (trim (body_name req))) ->
  store_available w ->
  exists found,
    Genre_findOne (escape (trim (body_name req))) (db w) = Some found /\
    genres (db w) !! g_id found = Some (g_name found) /\
    g_name found = escape (trim (body_name req)) /\
    (genre_create_post req w).1 = redirect (url found) /\
    db (genre_create_post req w).2 = db w.
Proof.
  intros Hval Hlen Hid Hw.
  destruct (Genre_findOne_is_Some _ _ _ Hid) as [found Hfound].
  destruct (Genre_findOne_Some_inv _ _ _ Hfound) as [Hname Hstored].
  exists found. rewrite Hname.
  rewrite (genre_create_post_run req w Hval Hlen Hw), Hfound.
  repeat split; done.
Qed.

Lemma genre_create_post_existing_witness :
  let req := mkRequest 0 " Fiction " 0 [] in
  let w := quiet library in
  exists found,
    Genre_findOne (escape (trim (body_name req))) (db w) = Some found /\
    genres (db w) !! g_id found = Some (g_name found) /\
    g_name found = escape (trim (body_name req)) /\
    (genre_create_post req w).1 = redirect (url found) /\
    db (genre_create_post req w).2 = db w.
Proof.
  apply (genre_create_post_existing (mkRequest 0 " Fiction " 0 [])
           (quiet library) 1).
  - reflexivity.
  - vm_compute. lia.
  - reflexivity.
  - by vm_compute.
Defined.

(** X11. Submitting a name again: after a first create-POST that added the
    Genre, a second one with the same request is redirected to the same
    URL and leaves the store as the first one left it. *)
Theorem genre_create_post_resubmit (req : Request) (w : World) :
  validation req = [] ->
  (3 ≤ String.length (trim (body_name req)))%nat ->
  (forall id, genres (db w) !! id <> Some (escape (trim (body_name req)))) ->
  genres (db w) !! next_oid w = None ->
  store_available w ->
  let w1 := (genre_create_post req w).2 in
  (genre_create_post req w1).1 = (genre_create_post req w).1 /\
  db (genre_create_post req w1).2 = db w1.
Proof.
  intros Hval Hlen Hnew Hfresh Hw w1. subst w1.
  rewrite (genre_create_post_run req w Hval Hlen Hw).
  rewrite (Genre_findOne_None _ _ Hnew).
  unfold Genre_save. simpl. rewrite Hfresh. simpl.
  set (name := escape (trim (body_name req))).
  set (w1 := after_op _ _).
  assert (store_available w1) as Hw1
    by (by apply store_available_after_op, store_available_after_op).
  assert (genres (db w1) !! next_oid w = Some name) as Hin
    by apply lookup_insert_eq.
  rewrite (genre_create_post_run req w1 Hval Hlen Hw1). fold name.
  destruct (Genre_findOne_is_Some _ _ _ Hin) as [found Hfound].
  rewrite Hfound. split; [|done]. simpl. do 2 f_equal.
  destruct (Genre_findOne_Some_inv _ _ _ Hfound) as [Hname Hstored].
  destruct found as [fid fname]. simpl in *. subst fname.
  destruct (decide (fid = next_oid w)) as [->|Hne]; [done|].
  rewrite lookup_insert_ne in Hstored by done.
  by destruct (Hnew fid).
Qed.

Lemma genre_create_post_resubmit_witness :
  let req := mkRequest 0 " Poetry/Verse " 0 [] in
  let w1 := (genre_create_post req (quiet library)).2 in
  (genre_create_post req w1).1 = (genre_create_post req (quiet library)).1 /\
  db (genre_create_post req w1).2 = db w1.
Proof.
  apply (genre_create_post_resubmit (mkRequest 0 " Poetry/Verse " 0 [])
           (quiet library)).
  - reflexivity.
  - vm_compute. lia.
  - apply Genre_findOne_None_inv. reflexivity.
  - reflexivity.
  - by vm_compute.
Defined.

(** ** Delete-POST for an identifier that matches no Genre *)

Example orphaned_store :
  orphaned =
  {| genres := {[ 2 := "Art"; 3 := "&lt;" ]};
     books := books library;
     bookinstances := bookinstances library |}.
Proof. by vm_compute. Qed.

(** A delete-POST for an identifier that matches no Genre but that
    stored Books reference: the Books 10 and 11 and the instances 20 and
    22 are removed. *)
Lemma genre_delete_post_absent_genre_referenced :
  let req := mkRequest 1 "" 1 [] in
  let w := quiet orphaned in
  genres (db w) !! body_genreid req = None /\
  store_available w /\
  (genre_delete_post req w).1 = redirect "/catalog/genres" /\
  books (db w) !! 10 = Some (mkBookFields "Dune" "Sand" [1]) /\
  books (db (genre_delete_post req w).2) !! 10 = None /\
  bookinstances (db w) !! 20 = Some (mkBookInstanceFields 10) /\
  bookinstances (db (genre_delete_post req w).2) !! 20 = None /\
  size (books (db w)) = 3%nat /\
  size (books (db (genre_delete_post req w).2)) = 1%nat /\
  size (bookinstances (db w)) = 3%nat /\
  size (bookinstances (db (genre_delete_post req w).2)) = 1%nat.
Proof. repeat split; by vm_compute. Qed.

Lemma Book_find_nil_inv id s :
  Book_find id s = [] ->
  forall B b, books s !! B = Some b -> id ∉ genre b.
Proof.
  intros Hnil B b HB Hid.
  assert (mkBook B b ∈ Book_find id s) as Hin by by apply elem_of_Book_find.
  rewrite Hnil in Hin. by apply not_elem_of_nil in Hin.
Qed.

(** C6. When the body identifier matches no stored Genre, no stored Book
    references it and the store answers every operation, delete-POST
    redirects to the genre list, passes nothing to [next], and leaves the
    three collections exactly as they were. *)
Theorem genre_delete_post_absent_unreferenced (req : Request) (w : World) :
  genres (db w) !! body_genreid req = None ->
  (forall B b, books (db w) !! B = Some b -> body_genreid req ∉ genre b) ->
  store_available w ->
  (genre_delete_post req w).1 = redirect "/catalog/genres" /\
  db (genre_delete_post req w).2 = db w.
Proof.
  intros Hnone Hunref Hw.
  destruct (genre_delete_post_available req w Hw) as (Hr & Hg & Hb & Hi).
  split; [done|]. apply Store_eq.
  - rewrite Hg. by apply delete_id.
  - rewrite Hb. apply map_filter_id. intros B f HB. simpl.
    rewrite genre_in_singleton. by apply (Hunref B).
  - rewrite Hi, (Book_find_nil _ _ Hunref).
    apply map_filter_id. intros I f HI. simpl. apply not_elem_of_nil.
Qed.

Lemma genre_delete_post_absent_unreferenced_witness :
  (genre_delete_post (mkRequest 1 "" 7 []) (quiet library)).1
    = redirect "/catalog/genres" /\
  db (genre_delete_post (mkRequest 1 "" 7 []) (quiet library)).2
    = db (quiet library).
Proof.
  apply (genre_delete_post_absent_unreferenced (mkRequest 1 "" 7 [])
           (quiet library)).
  - reflexivity.
  - apply Book_find_nil_inv. reflexivity.
  - by vm_compute.
Defined.

(** C9. Two delete-POST requests with the same [genreid] in the body, in
    the same world, give the same response and the same world, whatever
    their path identifiers (and their other fields) are. *)
Theorem genre_delete_post_ignores_path (req1 req2 : Request) (w : World) :
  body_genreid req1 = body_genreid req2 ->
  genre_delete_post req1 w = genre_delete_post req2 w.
Proof. intros Hbody. unfold genre_delete_post. by rewrite Hbody. Qed.

Lemma genre_delete_post_ignores_path_witness :
  genre_delete_post (mkRequest 1 "" 1 []) (quiet library)
  = genre_delete_post (mkRequest 2 "" 1 []) (quiet library).
Proof.
  apply (genre_delete_post_ignores_path (mkRequest 1 "" 1 [])
           (mkRequest 2 "" 1 []) (quiet library)).
  reflexivity.
Defined.

(** ** Update-POST *)

(** C7. When no validation error is recorded, the path identifier
    matches no stored Genre and the store answers the update, the update
    returns [null], reading its [url] throws, and the handler passes that
    TypeError to [next]: an error without a status, not the 404 error of
    the GET handlers.  The store is as it was. *)
Theorem genre_update_post_vanished (req : Request) (w : World) :
  validation req = [] ->
  genres (db w) !! params_id req = None ->
  store_available w ->
  (genre_update_post req w).1 = next TypeError_url_of_null /\
  status TypeError_url_of_null = None /\
  TypeError_url_of_null <> not_found "Genre not found" /\
  db (genre_update_post req w).2 = db w.
Proof.
  intros Hval Hnone Hw.
  unfold genre_update_post, asyncHandler, try_catch, bind, validationResult,
    new_ObjectId.
  set (w0 := {| db := db w; faults := faults w; next_oid := next_oid w + 1 |}).
  assert (store_available w0) as Hw0 by exact Hw.
  rewrite Hval, (store_op_available _ w0 Hw0).
  unfold Genre_findOneAndUpdate. simpl. rewrite Hnone. simpl. done.
Qed.

Lemma genre_update_post_vanished_witness :
  (genre_update_post (mkRequest 9 "Drama" 0 []) (quiet library)).1
    = next TypeError_url_of_null /\
  status TypeError_url_of_null = None /\
  TypeError_url_of_null <> not_found "Genre not found" /\
  db (genre_update_post (mkRequest 9 "Drama" 0 []) (quiet library)).2
    = db (quiet library).
Proof.
  apply (genre_update_post_vanished (mkRequest 9 "Drama" 0 [])
           (quiet library)).
  - reflexivity.
  - reflexivity.
  - by vm_compute.
Defined.

(** C10. In every world, whatever faults are to come, update-POST leaves
    every Genre whose id is not the path identifier as it was, adds and
    removes no Genre id, and leaves Books and BookInstances as they were;
    the Genre under the path identifier is afterwards as before or has
    the submitted name.  When a validation error is recorded, no
    operation is sent to the store: the store is unchanged and so are
    the outcomes that await the next operations; only the ObjectId that
    the constructor of the document drew is used up. *)
Theorem genre_update_post_frame (req : Request) (w : World) :
  let s := db w in
  let s' := db (genre_update_post req w).2 in
  (forall id, id <> params_id req -> genres s' !! id = genres s !! id) /\
  dom (genres s') = dom (genres s) /\
  (genres s' !! params_id req = genres s !! params_id req \/
   genres s' !! params_id req = Some (body_name req)) /\
  books s' = books s /\
  bookinstances s' = bookinstances s /\
  match validation req with
  | [] => True
  | _ :: _ =>
      db (genre_update_post req w).2 = db w /\
      faults (genre_update_post req w).2 = faults w /\
      next_oid (genre_update_post req w).2 = next_oid w + 1
  end.
Proof.
  intros s s'. subst s s'.
  unfold genre_update_post, asyncHandler, try_catch, bind, validationResult,
    new_ObjectId.
  destruct (validation req) as [|e l]; [|simpl; auto 10].
  unfold store_op. simpl.
  destruct (hd None (faults w)) as [err|]; [simpl; auto 10|].
  unfold Genre_findOneAndUpdate. simpl.
  destruct (genres (db w) !! params_id req) as [old|] eqn:Hold;
    [|simpl; auto 10].
  destruct (decide (params_id req = params_id req)) as [_|Hne]; [|done].
  simpl. repeat split.
  - intros id Hid. by apply lookup_insert_ne.
  - by apply dom_insert_lookup_L.
  - right. apply lookup_insert_eq.
Qed.

(** ** The GET handlers *)

(** X1. The GET handlers only read: whatever faults are to come, the store
    and the ObjectId generator are afterwards as before. *)
Theorem get_handlers_read_only (req : Request) (w : World) :
  (db (genre_list req w).2 = db w /\
   next_oid (genre_list req w).2 = next_oid w) /\
  (db (genre_detail req w).2 = db w /\
   next_oid (genre_detail req w).2 = next_oid w) /\
  genre_create_get req w
    = (render "genre_form" (genre_form_locals "Create Genre" None None), w) /\
  (db (genre_delete_get req w).2 = db w /\
   next_oid (genre_delete_get req w).2 = next_oid w) /\
  (db (genre_update_get req w).2 = db w /\
   next_oid (genre_update_get req w).2 = next_oid w).
Proof.
  unfold genre_list, genre_detail, genre_create_get, genre_delete_get,
    genre_update_get.
  unfold then_catch, asyncHandler, bind, Promise_all2, read, store_op. simpl.
  destruct (hd None (faults w)) as [e1|]; simpl;
    destruct (hd None (tl (faults w))) as [e2|]; simpl;
    destruct (Genre_findById (params_id req) (db w)); simpl;
    repeat split; done.
Qed.

Lemma Genre_findById_Some id name s :
  genres s !! id = Some name -> Genre_findById id s = Some (mkGenre id name).
Proof. intros H. unfold Genre_findById. by rewrite H. Qed.

(** Each Book that [Book.find] returns is returned once. *)
Lemma Book_find_NoDup id s : NoDup (b_id <$> Book_find id s).
Proof.
  unfold Book_find, book_docs. rewrite <- list_fmap_compose.
  apply NoDup_fst_map_to_list.
Qed.

(** X2. The detail page of a stored Genre: when the path identifier is the
    id of a stored Genre and the store answers both queries, the view
    [genre_detail] is rendered (status 200) with that Genre and with the
    title and summary of exactly the Books that reference it, each once. *)
Theorem genre_detail_found (req : Request) (w : World) (name : string) :
  genres (db w) !! params_id req = Some name ->
  store_available w ->
  exists genre_books,
    (genre_detail req w).1 =
      render "genre_detail"
        (genre_detail_locals "Genre Detail"
           (mkGenre (params_id req) name) genre_books) /\
    statusCode (genre_detail req w).1 = Some 200%nat /\
    (forall bs,
       bs ∈ genre_books <->
       exists b, books (db w) !! bs_id bs = Some b /\
                 params_id req ∈ genre b /\
                 bs_title bs = title b /\ bs_summary bs = summary b) /\
    NoDup (bs_id <$> genre_books).
Proof.
  intros Hname Hw.
  pose proof (store_available_after_op (db w) w Hw) as Hw'.
  exists (projection <$> Book_find (params_id req) (db w)).
  unfold genre_detail, asyncHandler, bind, Promise_all2.
  rewrite (read_available _ w Hw), (read_available _ _ Hw'). simpl.
  rewrite (Genre_findById_Some _ _ _ Hname). simpl.
  repeat split.
  - intros Hin. apply list_elem_of_fmap in Hin as (b & -> & Hb).
    apply elem_of_Book_find in Hb as [Hl Hg].
    exists (b_fields b). done.
  - intros (b & Hl & Hg & Ht & Hs). apply list_elem_of_fmap.
    exists (mkBook (bs_id bs) b). split.
    + destruct bs as [i t u]. simpl in *. by subst.
    + by apply elem_of_Book_find.
  - rewrite <- list_fmap_compose. apply Book_find_NoDup.
Qed.

Lemma genre_detail_found_witness :
  exists genre_books,
    (genre_detail (mkRequest 1 "" 0 []) (quiet library)).1 =
      render "genre_detail"
        (genre_detail_locals "Genre Detail" (mkGenre 1 "Fiction") genre_books) /\
    statusCode (genre_detail (mkRequest 1 "" 0 []) (quiet library)).1
      = Some 200%nat /\
    (forall bs,
       bs ∈ genre_books <->
       exists b, books library !! bs_id bs = Some b /\
                 1 ∈ genre b /\
                 bs_title bs = title b /\ bs_summary bs = summary b) /\
    NoDup (bs_id <$> genre_books).
Proof.
  apply (genre_detail_found (mkRequest 1 "" 0 []) (quiet library) "Fiction").
  - reflexivity.
  - by vm_compute.
Defined.

(** X3. The confirmation page of a stored Genre lists what the delete will
    remove: when the Genre is stored and the store answers, delete-GET
    renders [genre_delete] with the Genre and with exactly the stored
    Books that a delete-POST for the same id, in the same world, removes. *)
Theorem genre_delete_get_lists_removed_books
    (req : Request) (w : World) (name : string) :
  genres (db w) !! params_id req = Some name ->
  body_genreid req = params_id req ->
  store_available w ->
  exists genreBooks,
    (genre_delete_get req w).1 =
      render "genre_delete"
        (genre_delete_locals "Delete Genre"
           (mkGenre (params_id req) name) genreBooks) /\
    (forall B b,
       mkBook B b ∈ genreBooks <->
       books (db w) !! B = Some b /\
       books (db (genre_delete_post req w).2) !! B = None) /\
    NoDup (b_id <$> genreBooks).
Proof.
  intros Hname Hbody Hw.
  pose proof (store_available_after_op (db w) w Hw) as Hw'.
  destruct (genre_delete_post_available req w Hw) as (_ & _ & Hb & _).
  simpl in Hb. rewrite Hbody in Hb.
  exists (Book_find (params_id req) (db w)).
  unfold genre_delete_get, asyncHandler, bind, Promise_all2.
  rewrite (read_available _ w Hw), (read_available _ _ Hw'). simpl.
  rewrite (Genre_findById_Some _ _ _ Hname). simpl.
  split; [done|]. split; [|apply Book_find_NoDup].
  intros B b. split.
  - intros [Hl Hg]%elem_of_Book_find. simpl in *. split; [done|].
    rewrite Hb. apply map_lookup_filter_None. right.
    intros b' Hl' Hkeep. simpl in Hkeep. apply Hkeep, genre_in_singleton.
    rewrite Hl in Hl'. by injection Hl' as <-.
  - intros [Hl Hgone]. apply elem_of_Book_find. simpl. split; [done|].
    rewrite Hb in Hgone.
    apply map_lookup_filter_None in Hgone as [Hgone|Hgone]; [congruence|].
    specialize (Hgone b Hl). simpl in Hgone.
    apply dec_stable. intros Hnot. apply Hgone.
    by rewrite genre_in_singleton.
Qed.

Lemma genre_delete_get_lists_removed_books_witness :
  let req := mkRequest 1 "" 1 [] in
  let w := quiet library in
  exists genreBooks,
    (genre_delete_get req w).1 =
      render "genre_delete"
        (genre_delete_locals "Delete Genre" (mkGenre 1 "Fiction") genreBooks) /\
    (forall B b,
       mkBook B b ∈ genreBooks <->
       books (db w) !! B = Some b /\
       books (db (genre_delete_post req w).2) !! B = None) /\
    NoDup (b_id <$> genreBooks).
Proof.
  apply (genre_delete_get_lists_removed_books (mkRequest 1 "" 1 [])
           (quiet library) "Fiction").
  - reflexivity.
  - reflexivity.
  - by vm_compute.
Defined.

(** ** More on update-POST *)

(** The run of update-POST on a stored Genre when the store answers. *)
Lemma genre_update_post_run (req : Request) (w : World) (old : string) :
  validation req = [] ->
  genres (db w) !! params_id req = Some old ->
  store_available w ->
  genre_update_post req w =
    (redirect (url (mkGenre (params_id req) (body_name req))),
     after_op
       (set_genres (<[params_id req := body_name req]> (genres (db w))) (db w))
       {| db := db w; faults := faults w; next_oid := next_oid w + 1 |}).
Proof.
  intros Hval Hold Hw.
  unfold genre_update_post, asyncHandler, try_catch, bind, validationResult,
    new_ObjectId.
  set (w0 := {| db := db w; faults := faults w; next_oid := next_oid w + 1 |}).
  assert (store_available w0) as Hw0 by exact Hw.
  rewrite Hval, (store_op_available _ w0 Hw0).
  unfold Genre_findOneAndUpdate. simpl. rewrite Hold.
  by destruct (decide (params_id req = params_id req)).
Qed.

(** The run of update-GET when the store answers. *)
Lemma genre_update_get_run (req : Request) (w : World) :
  store_available w ->
  genre_update_get req w =
    (match genres (db w) !! params_id req with
     | Some name =>
         render "genre_form"
           (genre_form_locals "Update Genre"
              (Some (mkGenre (params_id req) name)) None)
     | None => next (not_found "Genre not found")
     end,
     after_op (db w) w).
Proof.
  intros Hw. unfold genre_update_get, asyncHandler, bind.
  rewrite (read_available _ w Hw). unfold Genre_findById. simpl.
  by destruct (genres (db w) !! params_id req).
Qed.

(** X21. Update-POST of a stored Genre: with no validation error recorded and
    a store that answers, the Genre under the path identifier gets the
    submitted name exactly as it was submitted (it is not trimmed, not
    escaped and not measured), nothing else in the store changes, and the
    response is a redirect to the canonical URL of that same identifier. *)
Theorem genre_update_post_updates (req : Request) (w : World) (old : string) :
  validation req = [] ->
  genres (db w) !! params_id req = Some old ->
  store_available w ->
  (genre_update_post req w).1
    = redirect ("/genre/" +:+ toHexString (params_id req)) /\
  genres (db (genre_update_post req w).2)
    = <[params_id req := body_name req]> (genres (db w)) /\
  books (db (genre_update_post req w).2) = books (db w) /\
  bookinstances (db (genre_update_post req w).2) = bookinstances (db w).
Proof.
  intros Hval Hold Hw.
  by rewrite (genre_update_post_run req w old Hval Hold Hw).
Qed.

Lemma genre_update_post_updates_witness :
  let req := mkRequest 2 " <b> " 0 [] in
  let w := quiet library in
  (genre_update_post req w).1
    = redirect ("/genre/" +:+ toHexString 2) /\
  genres (db (genre_update_post req w).2)
    = <[2 := " <b> "]> (genres (db w)) /\
  books (db (genre_update_post req w).2) = books (db w) /\
  bookinstances (db (genre_update_post req w).2) = bookinstances (db w).
Proof.
  apply (genre_update_post_updates (mkRequest 2 " <b> " 0 [])
           (quiet library) "Art").
  - reflexivity.
  - reflexivity.
  - by vm_compute.
Defined.

(** X22. Update-POST does not look for the name among the other Genres:
    renaming a stored Genre to the name of another stored Genre goes
    through, and afterwards two Genres have that name. *)
Theorem genre_update_post_duplicates_name
    (req : Request) (w : World) (old : string) (other : ObjectId) :
  validation req = [] ->
  genres (db w) !! params_id req = Some old ->
  other <> params_id req ->
  genres (db w) !! other = Some (body_name req) ->
  store_available w ->
  statusCode (genre_update_post req w).1 = Some 302%nat /\
  genres (db (genre_update_post req w).2) !! params_id req
    = Some (body_name req) /\
  genres (db (genre_update_post req w).2) !! other = Some (body_name req) /\
  ¬ unique_names (db (genre_update_post req w).2).
Proof.
  intros Hval Hold Hother Hname Hw.
  rewrite (genre_update_post_run req w old Hval Hold Hw). simpl.
  assert (<[params_id req := body_name req]> (genres (db w)) !! other
          = Some (body_name req)) as Ho
    by by rewrite lookup_insert_ne.
  repeat split; [apply lookup_insert_eq|done|].
  intros Huniq. apply Hother.
  apply (Huniq other (params_id req) (body_name req)); simpl; [done|].
  apply lookup_insert_eq.
Qed.

Lemma genre_update_post_duplicates_name_witness :
  let req := mkRequest 2 "Fiction" 0 [] in
  let w := quiet library in
  statusCode (genre_update_post req w).1 = Some 302%nat /\
  genres (db (genre_update_post req w).2) !! 2 = Some "Fiction" /\
  genres (db (genre_update_post req w).2) !! 1 = Some "Fiction" /\
  ¬ unique_names (db (genre_update_post req w).2).
Proof.
  apply (genre_update_post_duplicates_name (mkRequest 2 "Fiction" 0 [])
           (quiet library) "Art" 1).
  - reflexivity.
  - reflexivity.
  - by vm_compute.
  - reflexivity.
  - by vm_compute.
Defined.

(** X23. What update-POST stored is what update-GET shows: after an update of
    a stored Genre, update-GET for the same identifier renders the form
    with the submitted name. *)
Theorem genre_update_post_then_get (req : Request) (w : World) (old : string) :
  validation req = [] ->
  genres (db w) !! params_id req = Some old ->
  store_available w ->
  (genre_update_get req (genre_update_post req w).2).1 =
    render "genre_form"
      (genre_form_locals "Update Genre"
         (Some (mkGenre (params_id req) (body_name req))) None).
Proof.
  intros Hval Hold Hw.
  rewrite (genre_update_post_run req w old Hval Hold Hw). simpl.
  rewrite genre_update_get_run by (apply store_available_after_op; exact Hw).
  simpl. by rewrite lookup_insert_eq.
Qed.

Lemma genre_update_post_then_get_witness :
  let req := mkRequest 2 "Arts" 0 [] in
  (genre_update_get req (genre_update_post req (quiet library)).2).1 =
    render "genre_form"
      (genre_form_locals "Update Genre" (Some (mkGenre 2 "Arts")) None).
Proof.
  apply (genre_update_post_then_get (mkRequest 2 "Arts" 0 [])
           (quiet library) "Art").
  - reflexivity.
  - reflexivity.
  - by vm_compute.
Defined.

(** ** More on create-POST *)

Lemma length_app (s1 s2 : string) :
  String.length (s1 +:+ s2) = (String.length s1 + String.length s2)%nat.
Proof.
  induction s1 as [|c s1 IH]; [done|].
  change (S (String.length (s1 +:+ s2))
          = S (String.length s1 + String.length s2)%nat).
  by rewrite IH.
Qed.

Lemma code_units_app (s1 s2 : string) :
  code_units (s1 +:+ s2) = (code_units s1 ++ code_units s2)%list.
Proof.
  induction s1 as [|c s1 IH]; [done|].
  change (c :: code_units (s1 +:+ s2)
          = c :: (code_units s1 ++ code_units s2)%list).
  by rewrite IH.
Qed.

Lemma escape_char_spec (c : ascii) :
  (1 ≤ String.length (escape_char c))%nat /\
  Forall (fun c' => is_markup c' = false) (code_units (escape_char c)).
Proof.
  destruct c as [[] [] [] [] [] [] [] []];
    (split; [vm_compute; lia | vm_compute; repeat constructor]).
Qed.

(** [escape] never makes a string shorter. *)
Lemma escape_length (s : string) :
  (String.length s ≤ String.length (escape s))%nat.
Proof.
  induction s as [|c s IH]; [done|].
  change (S (String.length s)
          ≤ String.length (escape_char c +:+ escape s))%nat.
  rewrite length_app. destruct (escape_char_spec c) as [H1 _]. lia.
Qed.

(** [escape] leaves no markup character. *)
Lemma escape_no_markup (s : string) :
  Forall (fun c => is_markup c = false) (code_units (escape s)).
Proof.
  induction s as [|c s IH]; [constructor|].
  change (Forall (fun c => is_markup c = false)
            (code_units (escape_char c +:+ escape s))).
  rewrite code_units_app. apply Forall_app. split; [|done].
  apply escape_char_spec.
Qed.

Lemma ltrim_blank (s : string) :
  Forall (fun c => is_whitespace c = true) (code_units s) -> ltrim s = "".
Proof.
  induction s as [|c s IH]; [done|]. simpl. intros Hs.
  apply Forall_cons in Hs as [Hc Hs]. rewrite Hc. by apply IH.
Qed.

(** A name of white space only is trimmed to the empty string. *)
Lemma trim_blank (s : string) :
  Forall (fun c => is_whitespace c = true) (code_units s) -> trim s = "".
Proof. intros Hs. unfold trim. by rewrite (ltrim_blank s Hs). Qed.

(** The run of create-POST on a name that is too short. *)
Lemma genre_create_post_invalid_run (req : Request) (w : World) :
  (String.length (trim (body_name req)) < 3)%nat ->
  genre_create_post req w =
    (render "genre_form"
       (genre_form_locals "Create Genre"
          (Some (mkGenre (next_oid w) (escape (trim (body_name req)))))
          (Some (validation req ++ [name_too_short (trim (body_name req))])%list)),
     {| db := db w; faults := faults w; next_oid := next_oid w + 1 |}).
Proof.
  intros Hshort. unfold genre_create_post.
  rewrite (body_name_chain_invalid req Hshort).
  unfold genre_create_post_handler, asyncHandler, bind, new_ObjectId,
    validationResult.
  simpl. by destruct (validation req).
Qed.

(** What create-POST can do to the store, in every world: nothing, or
    the insert of the new Genre, and that only for a valid name that the
    query by name did not find. *)
Lemma genre_create_post_cases (req : Request) (w : World) :
  let name := escape (trim (body_name req)) in
  db (genre_create_post req w).2 = db w \/
  (validation req = [] /\
   (3 ≤ String.length (trim (body_name req)))%nat /\
   Genre_findOne name (db w) = None /\
   genres (db w) !! next_oid w = None /\
   db (genre_create_post req w).2
     = set_genres (<[next_oid w := name]> (genres (db w))) (db w) /\
   (genre_create_post req w).1 = redirect (url (mkGenre (next_oid w) name))).
Proof.
  intros name.
  destruct (decide (3 ≤ String.length (trim (body_name req)))%nat)
    as [Hlen|Hshort].
  2: { left. rewrite genre_create_post_invalid_run by lia. done. }
  unfold genre_create_post. rewrite (body_name_chain_valid req Hlen).
  unfold genre_create_post_handler, asyncHandler, bind, new_ObjectId,
    validationResult, read, store_op.
  simpl. fold name.
  destruct (validation req) as [|v vs] eqn:Hval; simpl; [|by left].
  destruct (hd None (faults w)) as [e1|]; simpl; [by left|].
  destruct (Genre_findOne name (db w)) as [found|] eqn:Hfind; simpl;
    [by left|].
  destruct (hd None (tl (faults w))) as [e2|]; simpl; [by left|].
  unfold Genre_save. simpl.
  destruct (genres (db w) !! next_oid w) eqn:Hfresh; simpl; [by left|].
  right. done.
Qed.

(** X6. Create-POST never touches what is stored: in every world, whatever
    faults are to come, each stored Genre is afterwards stored under the
    same id with the same name, Books and BookInstances are as they
    were, and the Genre collection grows by at most one document. *)
Theorem genre_create_post_keeps_documents (req : Request) (w : World) :
  let s := db w in
  let s' := db (genre_create_post req w).2 in
  genres s ⊆ genres s' /\
  books s' = books s /\
  bookinstances s' = bookinstances s /\
  (size (genres s') ≤ S (size (genres s)))%nat.
Proof.
  intros s s'. subst s s'.
  destruct (genre_create_post_cases req w)
    as [->|(_ & _ & _ & Hfresh & -> & _)]; simpl.
  - repeat split; [done|lia].
  - repeat split; [by apply insert_subseteq|].
    rewrite map_size_insert_None by done. lia.
Qed.

(** X7. Every Genre that create-POST adds has a sanitized name: when a run
    of create-POST, in any world, leaves a Genre under an id that was
    free, that id is the new ObjectId, the request had no validation
    error, and the name is the trimmed and escaped submitted name; it
    has at least 3 characters and none of them is a markup character. *)
Theorem genre_create_post_stores_sanitized
    (req : Request) (w : World) (id : ObjectId) (n : string) :
  genres (db w) !! id = None ->
  genres (db (genre_create_post req w).2) !! id = Some n ->
  id = next_oid w /\
  validation req = [] /\
  n = escape (trim (body_name req)) /\
  (3 ≤ String.length n)%nat /\
  Forall (fun c => is_markup c = false) (code_units n).
Proof.
  intros Hfree Hadded.
  destruct (genre_create_post_cases req w)
    as [Hsame|(Hval & Hlen & _ & _ & Hdb & _)].
  { rewrite Hsame in Hadded. congruence. }
  rewrite Hdb in Hadded. simpl in Hadded.
  destruct (decide (id = next_oid w)) as [->|Hne].
  - rewrite lookup_insert_eq in Hadded. injection Hadded as <-.
    repeat split; [done| |apply escape_no_markup].
    pose proof (escape_length (trim (body_name req))). lia.
  - rewrite lookup_insert_ne in Hadded by done. congruence.
Qed.

Lemma genre_create_post_stores_sanitized_witness :
  100 = next_oid (quiet library) /\
  validation (mkRequest 0 " <Pulp> " 0 []) = [] /\
  "&lt;Pulp&gt;" = escape (trim (body_name (mkRequest 0 " <Pulp> " 0 []))) /\
  (3 ≤ String.length "&lt;Pulp&gt;")%nat /\
  Forall (fun c => is_markup c = false) (code_units "&lt;Pulp&gt;").
Proof.
  apply (genre_create_post_stores_sanitized (mkRequest 0 " <Pulp> " 0 [])
           (quiet library) 100 "&lt;Pulp&gt;").
  - reflexivity.
  - by vm_compute.
Defined.

(** X8. A name of white space only, the empty name included, is rejected in
    every world: the form is rendered again with an empty name and the
    error of the field, and no operation is sent to the store. *)
Theorem genre_create_post_blank (req : Request) (w : World) :
  Forall (fun c => is_whitespace c = true) (code_units (body_name req)) ->
  (genre_create_post req w).1 =
    render "genre_form"
      (genre_form_locals "Create Genre" (Some (mkGenre (next_oid w) ""))
         (Some (validation req ++ [name_too_short ""])%list)) /\
  db (genre_create_post req w).2 = db w /\
  faults (genre_create_post req w).2 = faults w.
Proof.
  intros Hblank. pose proof (trim_blank _ Hblank) as Htrim.
  rewrite genre_create_post_invalid_run by (rewrite Htrim; simpl; lia).
  by rewrite Htrim.
Qed.

Lemma genre_create_post_blank_witness :
  let req := mkRequest 0 "   " 0 [] in
  let w := quiet library in
  (genre_create_post req w).1 =
    render "genre_form"
      (genre_form_locals "Create Genre" (Some (mkGenre 100 ""))
         (Some [name_too_short ""])) /\
  db (genre_create_post req w).2 = db w /\
  faults (genre_create_post req w).2 = faults w.
Proof.
  apply (genre_create_post_blank (mkRequest 0 "   " 0 []) (quiet library)).
  vm_compute. repeat constructor.
Defined.

(** X9. A store error in the query by name, or in the save that follows a
    query that found nothing, goes to [next], and nothing is stored. *)
Theorem genre_create_post_store_error (req : Request) (w : World) (e : Error) :
  validation req = [] ->
  (3 ≤ String.length (trim (body_name req)))%nat ->
  hd None (faults w) = Some e \/
  (hd None (faults w) = None /\
   Genre_findOne (escape (trim (body_name req))) (db w) = None /\
   hd None (tl (faults w)) = Some e) ->
  (genre_create_post req w).1 = next e /\
  db (genre_create_post req w).2 = db w.
Proof.
  intros Hval Hlen Hfault.
  unfold genre_create_post. rewrite (body_name_chain_valid req Hlen).
  unfold genre_create_post_handler, asyncHandler, bind, new_ObjectId,
    validationResult, read, store_op.
  simpl. rewrite Hval. simpl.
  destruct Hfault as [H1|(H1 & Hfind & H2)]; rewrite H1; simpl; [done|].
  rewrite Hfind. simpl. rewrite H2. done.
Qed.

Lemma genre_create_post_store_error_witness :
  let req := mkRequest 0 "Poetry" 0 [] in
  let w := {| db := library; faults := [None; Some timeout]; next_oid := 100 |} in
  (genre_create_post req w).1 = next timeout /\
  db (genre_create_post req w).2 = db w.
Proof.
  apply (genre_create_post_store_error (mkRequest 0 "Poetry" 0 [])
           {| db := library; faults := [None; Some timeout]; next_oid := 100 |}
           timeout).
  - reflexivity.
  - vm_compute. lia.
  - right. repeat split; reflexivity.
Defined.

Lemma NoDup_fmap_elem_of_inj {A B} (f : A -> B) (l : list A) (x y : A) :
  NoDup (f <$> l) -> x ∈ l -> y ∈ l -> f x = f y -> x = y.
Proof.
  induction l as [|a l IH]; simpl; [by intros _ ?%not_elem_of_nil|].
  intros [Ha Hl]%NoDup_cons [->|Hx]%elem_of_cons [->|Hy]%elem_of_cons Hf;
    [done| | |by apply IH].
  - destruct Ha. rewrite Hf. by apply list_elem_of_fmap_2.
  - destruct Ha. rewrite <- Hf. by apply list_elem_of_fmap_2.
Qed.

Lemma unique_names_NoDup (s : Store) :
  NoDup (map_to_list (genres s)).*2 -> unique_names s.
Proof.
  intros Hnd i j n Hi Hj.
  apply elem_of_map_to_list in Hi, Hj.
  by pose proof (NoDup_fmap_elem_of_inj snd _ (i, n) (j, n) Hnd Hi Hj eq_refl)
    as [= ->].
Qed.

(** X10. Create-POST keeps names unique: when no two stored Genres have the
    same name, no two have afterwards, in every world. *)
Theorem genre_create_post_keeps_names_unique (req : Request) (w : World) :
  unique_names (db w) ->
  unique_names (db (genre_create_post req w).2).
Proof.
  intros Huniq.
  destruct (genre_create_post_cases req w)
    as [->|(_ & _ & Hfind & _ & -> & _)]; [done|].
  pose proof (Genre_findOne_None_inv _ _ Hfind) as Hnew.
  intros i j n. simpl.
  destruct (decide (i = next_oid w)) as [->|Hi];
    destruct (decide (j = next_oid w)) as [->|Hj];
    rewrite ?lookup_insert_eq, ?lookup_insert_ne by done; [done| | |].
  - intros [= <-] Hjn. by destruct (Hnew j).
  - intros Hin [= <-]. by destruct (Hnew i).
  - apply Huniq.
Qed.

Lemma genre_create_post_keeps_names_unique_witness :
  unique_names
    (db (genre_create_post (mkRequest 0 "Poetry" 0 []) (quiet library)).2).
Proof.
  apply (genre_create_post_keeps_names_unique (mkRequest 0 "Poetry" 0 [])
           (quiet library)).
  apply unique_names_NoDup. apply (bool_decide_unpack _). by vm_compute.
Defined.

(** ** More on delete-POST *)

(** The run of delete-POST in every world.  The first entry of [faults]
    is for the look-up of the Books, the next three for the deletes. *)
Lemma genre_delete_post_cases (req : Request) (w : World) :
  let G := body_genreid req in
  let f1 := hd None (tl (faults w)) in
  let f2 := hd None (tl (tl (faults w))) in
  let f3 := hd None (tl (tl (tl (faults w)))) in
  genre_delete_post req w =
    match hd None (faults w) with
    | Some e => (next e, after_op (db w) w)
    | None =>
        (match f1, f2, f3 with
         | Some e, _, _ | None, Some e, _ | None, None, Some e => next e
         | None, None, None => redirect "/catalog/genres"
         end,
         {| db :=
              {| genres :=
                   match f1 with
                   | Some _ => genres (db w)
                   | None => delete G (genres (db w))
                   end;
                 books :=
                   match f2 with
                   | Some _ => books (db w)
                   | None =>
                       filter (fun kv => ¬ genre_in [G] kv.2) (books (db w))
                   end;
                 bookinstances :=
                   match f3 with
                   | Some _ => bookinstances (db w)
                   | None =>
                       filter
                         (fun kv => book kv.2 ∉ b_id <$> Book_find G (db w))
                         (bookinstances (db w))
                   end |};
            faults := tl (tl (tl (tl (faults w))));
            next_oid := next_oid w |})
    end.
Proof.
  intros G f1 f2 f3. subst G f1 f2 f3.
  unfold genre_delete_post, asyncHandler, bind, Promise_all3, Promise_all2,
    read, write, store_op.
  destruct (hd None (faults w)) as [e0|]; simpl; [done|].
  destruct (hd None (tl (faults w))) as [e1|]; simpl;
    destruct (hd None (tl (tl (faults w)))) as [e2|]; simpl;
    destruct (hd None (tl (tl (tl (faults w))))) as [e3|]; simpl;
    destruct (db w); reflexivity.
Qed.

(** X15. Delete-POST removes nothing that is unrelated to the Genre and adds
    nothing: in every world, whatever faults are to come, every Genre
    with another id is kept, every Book that does not reference the
    Genre is kept, every BookInstance whose Book does not reference it
    is kept, and each collection afterwards is part of what it was. *)
Theorem genre_delete_post_spares_unrelated (req : Request) (w : World) :
  let G := body_genreid req in
  let s := db w in
  let s' := db (genre_delete_post req w).2 in
  (forall G', G' <> G -> genres s' !! G' = genres s !! G') /\
  (forall B b, books s !! B = Some b -> G ∉ genre b ->
               books s' !! B = Some b) /\
  (forall I i, bookinstances s !! I = Some i ->
               (forall b, books s !! book i = Some b -> G ∉ genre b) ->
               bookinstances s' !! I = Some i) /\
  genres s' ⊆ genres s /\
  books s' ⊆ books s /\
  bookinstances s' ⊆ bookinstances s.
Proof.
  intros G s s'. subst s s'. rewrite genre_delete_post_cases. fold G.
  destruct (hd None (faults w)) as [e0|]; simpl; [done|].
  repeat split.
  - intros G' HG'. destruct (hd None (tl (faults w))); [done|].
    by apply lookup_delete_ne.
  - intros B b HB HG. destruct (hd None (tl (tl (faults w)))); [done|].
    apply map_lookup_filter_Some. split; [done|]. simpl.
    by rewrite genre_in_singleton.
  - intros I i HI HG. destruct (hd None (tl (tl (tl (faults w))))); [done|].
    apply map_lookup_filter_Some. split; [done|]. simpl.
    intros Hin. apply list_elem_of_fmap in Hin as (b & Hb & Hin).
    apply elem_of_Book_find in Hin as [Hl Hg].
    rewrite <- Hb in Hl. by apply (HG _ Hl).
  - destruct (hd None (tl (faults w))); [done|]. apply delete_subseteq.
  - destruct (hd None (tl (tl (faults w)))); [done|].
    apply map_filter_subseteq.
  - destruct (hd None (tl (tl (tl (faults w))))); [done|].
    apply map_filter_subseteq.
Qed.

(** X16. When the look-up of the Books fails, the cascade does not start: the
    error goes to [next] and nothing is deleted. *)
Theorem genre_delete_post_lookup_error (req : Request) (w : World) (e : Error) :
  hd None (faults w) = Some e ->
  (genre_delete_post req w).1 = next e /\
  db (genre_delete_post req w).2 = db w.
Proof. intros He. rewrite genre_delete_post_cases, He. done. Qed.

Lemma genre_delete_post_lookup_error_witness :
  let w := {| db := library; faults := [Some timeout]; next_oid := 100 |} in
  (genre_delete_post (mkRequest 1 "" 1 []) w).1 = next timeout /\
  db (genre_delete_post (mkRequest 1 "" 1 []) w).2 = db w.
Proof.
  apply (genre_delete_post_lookup_error (mkRequest 1 "" 1 [])
           {| db := library; faults := [Some timeout]; next_oid := 100 |}
           timeout).
  reflexivity.
Defined.

(** X17. The three deletes are not undone by each other's failure: when the
    look-up and the delete of the Genre succeed and the delete of the
    Books fails, an error goes to [next], the Genre is gone, and every
    Book is still stored, those that reference the Genre included.  The
    error is that of the Books when the delete of the BookInstances
    succeeds, and one of the two when both deletes fail. *)
Theorem genre_delete_post_partial (req : Request) (w : World) (e : Error) :
  hd None (faults w) = None ->
  hd None (tl (faults w)) = None ->
  hd None (tl (tl (faults w))) = Some e ->
  match hd None (tl (tl (tl (faults w)))) with
  | None => (genre_delete_post req w).1 = next e
  | Some e' =>
      (genre_delete_post req w).1 = next e \/
      (genre_delete_post req w).1 = next e'
  end /\
  genres (db (genre_delete_post req w).2) !! body_genreid req = None /\
  books (db (genre_delete_post req w).2) = books (db w).
Proof.
  intros H0 H1 H2. rewrite genre_delete_post_cases, H0, H1, H2. simpl.
  split; [|split; [apply lookup_delete_eq|done]].
  destruct (hd None (tl (tl (tl (faults w))))) as [e'|]; [by left|done].
Qed.

Lemma genre_delete_post_partial_witness :
  let w := {| db := library;
              faults := [None; None; Some timeout; Some connection_closed];
              next_oid := 100 |} in
  ((genre_delete_post (mkRequest 1 "" 1 []) w).1 = next timeout \/
   (genre_delete_post (mkRequest 1 "" 1 []) w).1 = next connection_closed) /\
  genres (db (genre_delete_post (mkRequest 1 "" 1 []) w).2) !! 1 = None /\
  books (db (genre_delete_post (mkRequest 1 "" 1 []) w).2) = books (db w).
Proof.
  apply (genre_delete_post_partial (mkRequest 1 "" 1 [])
           {| db := library;
              faults := [None; None; Some timeout; Some connection_closed];
              next_oid := 100 |} timeout); reflexivity.
Defined.

Lemma genre_delete_post_keeps_available (req : Request) (w : World) :
  store_available w -> store_available (genre_delete_post req w).2.
Proof.
  intros Hw. rewrite genre_delete_post_cases.
  destruct (hd None (faults w)); [by apply store_available_after_op|].
  unfold store_available in *. simpl. by do 4 apply Forall_tail.
Qed.

(** The store after a delete-POST that met no fault, as one value. *)
Lemma genre_delete_post_store (req : Request) (w : World) :
  store_available w ->
  let G := body_genreid req in
  db (genre_delete_post req w).2 =
    {| genres := delete G (genres (db w));
       books := filter (fun kv => ¬ genre_in [G] kv.2) (books (db w));
       bookinstances :=
         filter (fun kv => book kv.2 ∉ b_id <$> Book_find G (db w))
           (bookinstances (db w)) |}.
Proof.
  intros Hw G.
  destruct (genre_delete_post_available req w Hw) as (_ & Hg & Hb & Hi).
  by apply Store_eq.
Qed.

(** No Book of the store after a delete-POST without fault references
    the Genre. *)
Lemma genre_delete_post_unreferenced (req : Request) (w : World) :
  store_available w ->
  forall B b, books (db (genre_delete_post req w).2) !! B = Some b ->
              body_genreid req ∉ genre b.
Proof.
  intros Hw B b. rewrite (genre_delete_post_store req w Hw). simpl.
  intros [_ Hkeep]%map_lookup_filter_Some. simpl in Hkeep.
  by rewrite genre_in_singleton in Hkeep.
Qed.

(** X18. Deleting twice is deleting once: a second delete-POST for the same
    id, after a first one that met no fault, redirects to the list again
    and leaves the store as the first one left it. *)
Theorem genre_delete_post_twice (req : Request) (w : World) :
  store_available w ->
  let w1 := (genre_delete_post req w).2 in
  (genre_delete_post req w1).1 = redirect "/catalog/genres" /\
  db (genre_delete_post req w1).2 = db w1.
Proof.
  intros Hw w1.
  pose proof (genre_delete_post_keeps_available req w Hw) as Hw1.
  pose proof (genre_delete_post_unreferenced req w Hw) as Hunref.
  fold w1 in Hw1, Hunref.
  split; [by apply genre_delete_post_available|].
  rewrite (genre_delete_post_store req w1 Hw1).
  apply Store_eq; simpl.
  - apply delete_id. subst w1.
    rewrite (genre_delete_post_store req w Hw). apply lookup_delete_eq.
  - apply map_filter_id. intros B b HB. simpl.
    rewrite genre_in_singleton. by apply (Hunref B).
  - rewrite (Book_find_nil _ _ Hunref).
    apply map_filter_id. intros I i HI. simpl. apply not_elem_of_nil.
Qed.

Lemma genre_delete_post_twice_witness :
  let req := mkRequest 1 "" 1 [] in
  let w1 := (genre_delete_post req (quiet library)).2 in
  (genre_delete_post req w1).1 = redirect "/catalog/genres" /\
  db (genre_delete_post req w1).2 = db w1.
Proof.
  apply (genre_delete_post_twice (mkRequest 1 "" 1 []) (quiet library)).
  by vm_compute.
Defined.

(** X19. A deleted Genre is gone for the pages: after a delete-POST that met
    no fault, the detail page, the delete page and the update form of
    the deleted id all answer with the 404 error. *)
Theorem genre_delete_post_then_get (del get : Request) (w : World) :
  params_id get = body_genreid del ->
  store_available w ->
  let w1 := (genre_delete_post del w).2 in
  (genre_detail get w1).1 = next (not_found "Genre not found") /\
  (genre_delete_get get w1).1 = next (not_found "Genre not found") /\
  (genre_update_get get w1).1 = next (not_found "Genre not found").
Proof.
  intros Hid Hw w1.
  pose proof (genre_delete_post_keeps_available del w Hw) as Hw1.
  fold w1 in Hw1.
  pose proof (store_available_after_op (db w1) w1 Hw1) as Hw1'.
  assert (Genre_findById (params_id get) (db w1) = None) as Hnone.
  { apply Genre_findById_None. subst w1.
    rewrite (genre_delete_post_store del w Hw), Hid. apply lookup_delete_eq. }
  unfold genre_detail, genre_delete_get, genre_update_get.
  unfold asyncHandler, bind, Promise_all2.
  rewrite !(read_available _ w1 Hw1), !(read_available _ _ Hw1'). simpl.
  by rewrite Hnone.
Qed.

Lemma genre_delete_post_then_get_witness :
  let w1 := (genre_delete_post (mkRequest 0 "" 1 []) (quiet library)).2 in
  (genre_detail (mkRequest 1 "" 0 []) w1).1
    = next (not_found "Genre not found") /\
  (genre_delete_get (mkRequest 1 "" 0 []) w1).1
    = next (not_found "Genre not found") /\
  (genre_update_get (mkRequest 1 "" 0 []) w1).1
    = next (not_found "Genre not found").
Proof.
  apply (genre_delete_post_then_get (mkRequest 0 "" 1 [])
           (mkRequest 1 "" 0 []) (quiet library)).
  - reflexivity.
  - by vm_compute.
Defined.

(** X20. Delete-POST keeps the references of the store whole: when every
    Genre that a Book references and the Book of every BookInstance are
    stored, they still are after a delete-POST that met no fault. *)
Theorem genre_delete_post_keeps_references (req : Request) (w : World) :
  referential (db w) ->
  store_available w ->
  referential (db (genre_delete_post req w).2).
Proof.
  intros [Hbooks Hinst] Hw.
  rewrite (genre_delete_post_store req w Hw).
  split; simpl.
  - intros B b [HB Hkeep]%map_lookup_filter_Some. simpl in *.
    rewrite genre_in_singleton in Hkeep.
    specialize (Hbooks B b HB). simpl in Hbooks.
    apply Forall_forall. intros g Hg.
    rewrite lookup_delete_ne by (intros <-; done).
    by apply (proj1 (Forall_forall _ _) Hbooks).
  - intros I i [HI Hkeep]%map_lookup_filter_Some. simpl in *.
    destruct (Hinst I i HI) as [b Hb]. simpl in Hb.
    exists b. apply map_lookup_filter_Some. split; [done|]. simpl.
    rewrite genre_in_singleton. intros Hg. apply Hkeep.
    apply list_elem_of_fmap. exists (mkBook (book i) b).
    split; [done|]. by apply elem_of_Book_find.
Qed.

Lemma genre_delete_post_keeps_references_witness :
  referential (db (genre_delete_post (mkRequest 1 "" 1 []) (quiet library)).2).
Proof.
  apply (genre_delete_post_keeps_references (mkRequest 1 "" 1 [])
           (quiet library)).
  - apply (bool_decide_unpack _). by vm_compute.
  - by vm_compute.
Defined.

(** ** Create, then look up or delete *)

(** The world after a create-POST that added the Genre. *)
Lemma genre_create_post_added (req : Request) (w : World) :
  validation req = [] ->
  (3 ≤ String.length (trim (body_name req)))%nat ->
  (forall id, genres (db w) !! id <> Some (escape (trim (body_name req)))) ->
  genres (db w) !! next_oid w = None ->
  store_available w ->
  let w1 := (genre_create_post req w).2 in
  store_available w1 /\
  db w1 = set_genres
            (<[next_oid w := escape (trim (body_name req))]> (genres (db w)))
            (db w).
Proof.
  intros Hval Hlen Hnew Hfresh Hw w1. subst w1.
  rewrite (genre_create_post_run req w Hval Hlen Hw).
  rewrite (Genre_findOne_None _ _ Hnew).
  unfold Genre_save. simpl. rewrite Hfresh. simpl.
  split; [|done]. by apply store_available_after_op, store_available_after_op.
Qed.

(** X12. What create-POST stored is what the pages show: after a create-POST
    that added the Genre, update-GET for the new id renders the form
    with the trimmed and escaped name, and the detail page shows the
    Genre under that name. *)
Theorem genre_create_post_then_get (req get : Request) (w : World) :
  validation req = [] ->
  (3 ≤ String.length (trim (body_name req)))%nat ->
  (forall id, genres (db w) !! id <> Some (escape (trim (body_name req)))) ->
  genres (db w) !! next_oid w = None ->
  store_available w ->
  params_id get = next_oid w ->
  let w1 := (genre_create_post req w).2 in
  let genre := mkGenre (next_oid w) (escape (trim (body_name req))) in
  (genre_update_get get w1).1 =
    render "genre_form" (genre_form_locals "Update Genre" (Some genre) None) /\
  exists genre_books,
    (genre_detail get w1).1 =
      render "genre_detail"
        (genre_detail_locals "Genre Detail" genre genre_books).
Proof.
  intros Hval Hlen Hnew Hfresh Hw Hid w1 genre.
  destruct (genre_create_post_added req w Hval Hlen Hnew Hfresh Hw)
    as [Hw1 Hdb].
  fold w1 in Hw1, Hdb.
  assert (genres (db w1) !! params_id get
          = Some (escape (trim (body_name req)))) as Hin.
  { rewrite Hdb, Hid. apply lookup_insert_eq. }
  split.
  - rewrite (genre_update_get_run get w1 Hw1), Hin, Hid. done.
  - pose proof (store_available_after_op (db w1) w1 Hw1) as Hw1'.
    eexists. unfold genre_detail, asyncHandler, bind, Promise_all2.
    rewrite (read_available _ w1 Hw1), (read_available _ _ Hw1'). simpl.
    rewrite (Genre_findById_Some _ _ _ Hin), Hid. done.
Qed.

Lemma genre_create_post_then_get_witness :
  let req := mkRequest 0 " Poetry/Verse " 0 [] in
  let get := mkRequest 100 "" 0 [] in
  let w1 := (genre_create_post req (quiet library)).2 in
  let genre := mkGenre 100 "Poetry&#x2F;Verse" in
  (genre_update_get get w1).1 =
    render "genre_form" (genre_form_locals "Update Genre" (Some genre) None) /\
  exists genre_books,
    (genre_detail get w1).1 =
      render "genre_detail"
        (genre_detail_locals "Genre Detail" genre genre_books).
Proof.
  apply (genre_create_post_then_get (mkRequest 0 " Poetry/Verse " 0 [])
           (mkRequest 100 "" 0 []) (quiet library)).
  - reflexivity.
  - vm_compute. lia.
  - apply Genre_findOne_None_inv. reflexivity.
  - reflexivity.
  - by vm_compute.
  - reflexivity.
Defined.

(** X14. Deleting what was just created restores the store: after a
    create-POST that added a Genre under an id that no Book references,
    a delete-POST for that id, without fault, leaves the three
    collections exactly as they were before the create-POST. *)
Theorem genre_create_post_then_delete (req del : Request) (w : World) :
  validation req = [] ->
  (3 ≤ String.length (trim (body_name req)))%nat ->
  (forall id, genres (db w) !! id <> Some (escape (trim (body_name req)))) ->
  genres (db w) !! next_oid w = None ->
  (forall B b, books (db w) !! B = Some b -> next_oid w ∉ genre b) ->
  store_available w ->
  body_genreid del = next_oid w ->
  db (genre_delete_post del (genre_create_post req w).2).2 = db w.
Proof.
  intros Hval Hlen Hnew Hfresh Hunref Hw Hid.
  destruct (genre_create_post_added req w Hval Hlen Hnew Hfresh Hw)
    as [Hw1 Hdb].
  rewrite (genre_delete_post_store del _ Hw1), Hdb, Hid.
  apply Store_eq; simpl.
  - by apply delete_insert_id.
  - apply map_filter_id. intros B b HB. simpl.
    rewrite genre_in_singleton. by apply (Hunref B).
  - rewrite Book_find_nil by done.
    apply map_filter_id. intros I i HI. simpl. apply not_elem_of_nil.
Qed.

Lemma genre_create_post_then_delete_witness :
  db (genre_delete_post (mkRequest 0 "" 100 [])
        (genre_create_post (mkRequest 0 " Poetry/Verse " 0 [])
           (quiet library)).2).2
  = db (quiet library).
Proof.
  apply (genre_create_post_then_delete (mkRequest 0 " Poetry/Verse " 0 [])
           (mkRequest 0 "" 100 []) (quiet library)).
  - reflexivity.
  - vm_compute. lia.
  - apply Genre_findOne_None_inv. reflexivity.
  - reflexivity.
  - apply Book_find_nil_inv. reflexivity.
  - by vm_compute.
  - reflexivity.
Defined.

(** ** References under create-POST and update-POST *)

(** What update-POST can do to the store, in every world: nothing, or a
    new name for the Genre that is stored under the path identifier. *)
Lemma genre_update_post_cases (req : Request) (w : World) :
  db (genre_update_post req w).2 = db w \/
  (is_Some (genres (db w) !! params_id req) /\
   db (genre_update_post req w).2
     = set_genres (<[params_id req := body_name req]> (genres (db w))) (db w)).
Proof.
  unfold genre_update_post, asyncHandler, try_catch, bind, validationResult,
    new_ObjectId, store_op.
  destruct (validation req) as [|v vs]; simpl; [|by left].
  destruct (hd None (faults w)) as [e|]; simpl; [by left|].
  unfold Genre_findOneAndUpdate. simpl.
  destruct (genres (db w) !! params_id req) as [old|] eqn:Hold; simpl;
    [|by left].
  destruct (decide (params_id req = params_id req)); [|done].
  right. simpl. eauto.
Qed.

Lemma referential_set_genres (s : Store) (m : gmap ObjectId string) :
  (forall g, is_Some (genres s !! g) -> is_Some (m !! g)) ->
  referential s -> referential (set_genres m s).
Proof.
  intros Hm [Hbooks Hinst]. split; simpl; [|done].
  intros B b HB. specialize (Hbooks B b HB). simpl in *.
  eapply Forall_impl; [exact Hbooks|]. intros g. apply Hm.
Qed.

(** X25. Create-POST and update-POST keep the references of the store whole,
    in every world: when every Genre that a Book references and the Book
    of every BookInstance are stored, they still are afterwards. *)
Theorem genre_create_update_keep_references (req : Request) (w : World) :
  referential (db w) ->
  referential (db (genre_create_post req w).2) /\
  referential (db (genre_update_post req w).2).
Proof.
  intros Href. split.
  - destruct (genre_create_post_cases req w)
      as [->|(_ & _ & _ & _ & -> & _)]; [done|].
    apply referential_set_genres; [|done].
    intros g Hg. apply lookup_insert_is_Some'. by right.
  - destruct (genre_update_post_cases req w) as [->|(_ & ->)]; [done|].
    apply referential_set_genres; [|done].
    intros g Hg. apply lookup_insert_is_Some'. by right.
Qed.

Lemma genre_create_update_keep_references_witness :
  let req := mkRequest 2 "Poetry" 0 [] in
  referential (db (genre_create_post req (quiet library)).2) /\
  referential (db (genre_update_post req (quiet library)).2).
Proof.
  apply (genre_create_update_keep_references (mkRequest 2 "Poetry" 0 [])
           (quiet library)).
  apply (bool_decide_unpack _). by vm_compute.
Defined.

(** ** Store errors on the other paths *)

Lemma genre_absent_never_rendered_witness :
  let req := mkRequest 5 "" 0 [] in
  let w := {| db := library; faults := [None; Some timeout]; next_oid := 100 |} in
  (exists err, (genre_detail req w).1 = next err) /\
  (exists err, (genre_delete_get req w).1 = next err) /\
  (exists err, (genre_update_get req w).1 = next err).
Proof.
  apply (genre_absent_never_rendered (mkRequest 5 "" 0 [])
           {| db := library; faults := [None; Some timeout]; next_oid := 100 |}).
  reflexivity.
Defined.

(** X4. The detail page and the delete page are all or nothing: when one of
    their two queries fails, nothing is rendered, even if the Genre was
    found; an error of one of the two queries goes to [next]. *)
Theorem genre_pages_query_error (req : Request) (w : World) :
  hd None (faults w) <> None \/ hd None (tl (faults w)) <> None ->
  (exists e, Some e ∈ [hd None (faults w); hd None (tl (faults w))] /\
             (genre_detail req w).1 = next e) /\
  (exists e, Some e ∈ [hd None (faults w); hd None (tl (faults w))] /\
             (genre_delete_get req w).1 = next e).
Proof.
  intros Hfault.
  unfold genre_detail, genre_delete_get.
  unfold asyncHandler, bind, Promise_all2, read, store_op. simpl.
  destruct (hd None (faults w)) as [e1|]; simpl;
    destruct (hd None (tl (faults w))) as [e2|]; simpl.
  - split; exists e1; (split; [left|done]).
  - split; exists e1; (split; [left|done]).
  - split; exists e2; (split; [right; left|done]).
  - by destruct Hfault.
Qed.

Lemma genre_pages_query_error_witness :
  let req := mkRequest 1 "" 0 [] in
  let w := {| db := library; faults := [None; Some timeout]; next_oid := 100 |} in
  (exists e, Some e ∈ [hd None (faults w); hd None (tl (faults w))] /\
             (genre_detail req w).1 = next e) /\
  (exists e, Some e ∈ [hd None (faults w); hd None (tl (faults w))] /\
             (genre_delete_get req w).1 = next e).
Proof.
  apply (genre_pages_query_error (mkRequest 1 "" 0 [])
           {| db := library; faults := [None; Some timeout]; next_oid := 100 |}).
  right. vm_compute. discriminate.
Defined.

(** X24. A store error in the update is caught and passed to [next]; the
    store is as it was. *)
Theorem genre_update_post_store_error (req : Request) (w : World) (e : Error) :
  validation req = [] ->
  hd None (faults w) = Some e ->
  (genre_update_post req w).1 = next e /\
  db (genre_update_post req w).2 = db w.
Proof.
  intros Hval He.
  unfold genre_update_post, asyncHandler, try_catch, bind, validationResult,
    new_ObjectId.
  rewrite Hval.
  rewrite (store_op_fault _
             {| db := db w; faults := faults w; next_oid := next_oid w + 1 |}
             e He).
  done.
Qed.

Lemma genre_update_post_store_error_witness :
  let req := mkRequest 2 "Arts" 0 [] in
  let w := {| db := library; faults := [Some timeout]; next_oid := 100 |} in
  (genre_update_post req w).1 = next timeout /\
  db (genre_update_post req w).2 = db w.
Proof.
  apply (genre_update_post_store_error (mkRequest 2 "Arts" 0 [])
           {| db := library; faults := [Some timeout]; next_oid := 100 |}
           timeout); reflexivity.
Defined.

(** ** Create, then list *)

(** X13. A Genre that create-POST added is on the list: afterwards the list
    handler renders a list that holds the new Genre, under the trimmed
    and escaped name, and every Genre that was stored before. *)
Theorem genre_create_post_then_list (req lst : Request) (w : World) :
  validation req = [] ->
  (3 ≤ String.length (trim (body_name req)))%nat ->
  (forall id, genres (db w) !! id <> Some (escape (trim (body_name req)))) ->
  genres (db w) !! next_oid w = None ->
  store_available w ->
  let w1 := (genre_create_post req w).2 in
  exists list_genres,
    (genre_list lst w1).1 =
      render "genre_list" (genre_list_locals "Genre List" list_genres) /\
    mkGenre (next_oid w) (escape (trim (body_name req))) ∈ list_genres /\
    (forall g, genres (db w) !! g_id g = Some (g_name g) -> g ∈ list_genres) /\
    length list_genres = S (size (genres (db w))).
Proof.
  intros Hval Hlen Hnew Hfresh Hw w1.
  destruct (genre_create_post_added req w Hval Hlen Hnew Hfresh Hw)
    as [Hw1 Hdb].
  fold w1 in Hw1, Hdb.
  exists (Genre_find_sort (db w1)).
  unfold genre_list, then_catch. rewrite (read_available _ w1 Hw1). simpl.
  split; [done|]. rewrite Hdb. repeat split.
  - apply elem_of_Genre_find_sort. simpl. apply lookup_insert_eq.
  - intros g Hg. apply elem_of_Genre_find_sort. simpl.
    rewrite lookup_insert_ne; [done|]. intros Heq.
    rewrite <- Heq, Hfresh in Hg. done.
  - rewrite Genre_find_sort_Permutation. unfold genre_docs. simpl.
    rewrite length_fmap, length_map_to_list.
    by apply map_size_insert_None.
Qed.

Lemma genre_create_post_then_list_witness :
  let req := mkRequest 0 " Poetry/Verse " 0 [] in
  let w := quiet library in
  let w1 := (genre_create_post req w).2 in
  exists list_genres,
    (genre_list req w1).1 =
      render "genre_list" (genre_list_locals "Genre List" list_genres) /\
    mkGenre (next_oid w) (escape (trim (body_name req))) ∈ list_genres /\
    (forall g, genres (db w) !! g_id g = Some (g_name g) -> g ∈ list_genres) /\
    length list_genres = S (size (genres (db w))).
Proof.
  apply (genre_create_post_then_list (mkRequest 0 " Poetry/Verse " 0 [])
           (mkRequest 0 " Poetry/Verse " 0 []) (quiet library)).
  - reflexivity.
  - vm_compute. lia.
  - apply Genre_findOne_None_inv. reflexivity.
  - reflexivity.
  - by vm_compute.
Defined.
